(** * community_share/models/base.py: the [Serializable] base class

    A shallow embedding of [Serializable]: permission predicates,
    role-based serialisation, admin deserialisation, soft deletion and
    the query-filter builder, followed by the properties the
    specification states about them. *)

From Stdlib Require Import ZArith Lia Ascii String.
From stdpp Require Import gmap strings list fin_maps.

Local Open Scope string_scope.

(** ** Python values *)

(** [datetime.datetime]: the wall-clock fields and [tzinfo], the latter
    as the UTC offset in seconds ([None] for a naive value). *)
Record datetime := mk_datetime {
  year : Z; month : Z; day : Z;
  hour : Z; minute : Z; second : Z; microsecond : Z;
  tzinfo : option Z
}.

#[global] Instance datetime_eq_dec : EqDecision datetime.
Proof. solve_decision. Defined.

(** The values that attributes and incoming JSON data hold. *)
Inductive Value :=
  | VNone
  | VBool (b : bool)
  | VInt (n : Z)
  | VStr (s : string)
  | VDateTime (d : datetime).

#[global] Instance Value_eq_dec : EqDecision Value.
Proof. solve_decision. Defined.

(** Exceptions that the modelled code lets escape. *)
Inductive exn :=
  | AttributeError (name : string)
  | KeyError (key : string)
  | TypeError
  | ParserError
  | ValidationException (msg : string)
  | Exception (msg : string).

#[global] Instance exn_eq_dec : EqDecision exn.
Proof. solve_decision. Defined.

Inductive result (A : Type) :=
  | Ok (a : A)
  | Raise (e : exn).
Arguments Ok {A} a.
Arguments Raise {A} e.

(** Sequencing: an exception skips the rest.  With these instances
    stdpp's [x ← r; k] reads as a Python statement sequence. *)
#[global] Instance result_ret : MRet result := λ A a, Ok a.
#[global] Instance result_bind : MBind result := λ A B k r,
  match r with
  | Ok a => k a
  | Raise e => Raise e
  end.

(** A [for] loop whose body may raise: the state is threaded through
    the items in order and the first exception stops the loop. *)
Fixpoint for_each {A S} (body : S → A → result S) (items : list A) (s : S)
    : result S :=
  match items with
  | [] => Ok s
  | x :: rest => s' ← body s x; for_each body rest s'
  end.

(** ** Requesters, entities and classes *)

Record Requester := { is_administrator : bool }.

(** An entity is its attribute namespace: what [getattr], [hasattr]
    and [setattr] see. *)
Abbreviation Entity := (gmap string Value).

Definition hasattr (self : Entity) (name : string) : bool :=
  bool_decide (is_Some (self !! name)).

Definition getattr (self : Entity) (name : string) : result Value :=
  match self !! name with
  | Some v => Ok v
  | None => Raise (AttributeError name)
  end.

Definition setattr (self : Entity) (name : string) (v : Value) : Entity :=
  <[name := v]> self.

Record Permissions := {
  all_can_read_many : bool;
  standard_can_read_many : bool;
  admin_can_delete : bool
}.

(** Attributes bound on the class itself, as [hasattr(cls, name)] and
    [getattr(cls, name)] see them: a mapped column with its type, or
    anything else (a method, a constant). *)
Inductive ColumnType := Boolean | OtherType.
Inductive ClassAttr := Column (typ : ColumnType) | NonColumn.

#[global] Instance ColumnType_eq_dec : EqDecision ColumnType.
Proof. solve_decision. Defined.
#[global] Instance ClassAttr_eq_dec : EqDecision ClassAttr.
Proof. solve_decision. Defined.

(** The class-level configuration that subclasses override. *)
Record Class := {
  MANDATORY_FIELDS : list string;
  WRITEABLE_ONCE_FIELDS : list string;
  WRITEABLE_FIELDS : list string;
  STANDARD_READABLE_FIELDS : list string;
  ADMIN_READABLE_FIELDS : list string;
  PERMISSIONS : Permissions;
  custom_serializers : gmap string (Entity → option Requester → Value);
  custom_deserializers : gmap string (Entity → Value → Entity);
  (** the attribute namespace of a fresh [cls()] *)
  new_instance : Entity;
  (** the names bound on the class *)
  class_attrs : gmap string ClassAttr
}.

(** The defaults of [Serializable] itself. *)
Definition Serializable : Class := {|
  MANDATORY_FIELDS := [];
  WRITEABLE_ONCE_FIELDS := [];
  WRITEABLE_FIELDS := [];
  STANDARD_READABLE_FIELDS := ["id"];
  ADMIN_READABLE_FIELDS := ["id"];
  PERMISSIONS := {| all_can_read_many := false;
                    standard_can_read_many := false;
                    admin_can_delete := false |};
  custom_serializers := ∅;
  custom_deserializers := ∅;
  new_instance := ∅;
  class_attrs := ∅
|}.

(** ** Permission predicates *)

Definition has_add_rights (cls : Class) (data : list (string * Value))
    (requester : option Requester) : bool :=
  match requester with
  | Some r => is_administrator r
  | None => false
  end.

Definition has_standard_rights (requester : option Requester) : bool :=
  match requester with
  | Some _ => true
  | None => false
  end.

Definition has_admin_rights (requester : option Requester) : bool :=
  match requester with
  | Some r => is_administrator r
  | None => false
  end.

Definition has_delete_rights (cls : Class) (requester : option Requester)
    : bool :=
  match requester with
  | Some r =>
      if is_administrator r then true
      else if admin_can_delete (PERMISSIONS cls) && has_admin_rights requester
      then true
      else false
  | None => false
  end.

(** ** serialize *)

(** The keys of the dict comprehension:
    [(set(fieldnames) - set(exclude)) | ({'id'} if hasattr(self, 'id') else set())]. *)
Definition serialize_keys (self : Entity) (fieldnames exclude : list string)
    : gset string :=
  (list_to_set fieldnames ∖ list_to_set exclude)
  ∪ (if hasattr self "id" then {["id"]} else ∅).

(** The value of one key of the comprehension. *)
Definition serialize_value (cls : Class) (self : Entity)
    (requester : option Requester) (key : string) : result Value :=
  match custom_serializers cls !! key with
  | Some f => Ok (f self requester)
  | None => getattr self key
  end.

(** The comprehension over a list of keys. *)
Fixpoint serialize_items (cls : Class) (self : Entity)
    (requester : option Requester) (keys : list string)
    : result (list (string * Value)) :=
  match keys with
  | [] => Ok []
  | key :: rest =>
      v ← serialize_value cls self requester key;
      items ← serialize_items cls self requester rest;
      Ok ((key, v) :: items)
  end.

(** [None] of Python is the [None] of the option. *)
Definition serialize (cls : Class) (self : Entity)
    (requester : option Requester) (exclude : list string)
    : result (option (gmap string Value)) :=
  let comprehension fieldnames :=
    items ← serialize_items cls self requester
               (elements (serialize_keys self fieldnames exclude));
    Ok (Some (list_to_map items)) in
  if has_admin_rights requester then
    comprehension (ADMIN_READABLE_FIELDS cls)
  else if has_standard_rights requester then
    comprehension (STANDARD_READABLE_FIELDS cls)
  else Ok None.

(** ** delete *)

(** Truth value of a Python object, as [not self.active] takes it. *)
Definition truthy (v : Value) : bool :=
  match v with
  | VNone => false
  | VBool b => b
  | VInt n => negb (n =? 0)%Z
  | VStr s => negb (bool_decide (s = ""))
  | VDateTime _ => true
  end.

(** The calls by which [delete] reaches outside the entity:
    [store.session.add(self)] and the [on_delete] hook. *)
Inductive event :=
  | SessionAdd (obj : Entity)
  | OnDelete (obj : Entity) (requester : option Requester).

(** [on_delete] of the base class does nothing; the call is recorded. *)
Definition on_delete (self : Entity) (requester : option Requester)
    : list event :=
  [OnDelete self requester].

(** [delete] returns the entity after the call and the calls made. *)
Definition delete (self : Entity) (requester : option Requester)
    : result (Entity * list event) :=
  active ← getattr self "active";
  let previously_deleted := negb (truthy active) in
  if negb previously_deleted then
    let self := setattr self "active" (VBool false) in
    Ok (self, SessionAdd self :: on_delete self requester)
  else Ok (self, []).

(** ** Dates and their comparison *)

Local Open Scope Z_scope.

Definition is_leap (y : Z) : bool :=
  (y mod 4 =? 0) && (negb (y mod 100 =? 0) || (y mod 400 =? 0)).

Definition days_before_year (y : Z) : Z :=
  let y := y - 1 in y * 365 + y / 4 - y / 100 + y / 400.

Definition days_in_month (y m : Z) : Z :=
  if m =? 2 then (if is_leap y then 29 else 28)
  else if (m =? 4) || (m =? 6) || (m =? 9) || (m =? 11) then 30
  else 31.

Definition DAYS_BEFORE_MONTH : list Z :=
  [0; 31; 59; 90; 120; 151; 181; 212; 243; 273; 304; 334].

Definition days_before_month (y m : Z) : Z :=
  nth (Z.to_nat (m - 1)) DAYS_BEFORE_MONTH 0
  + (if (2 <? m) && is_leap y then 1 else 0).

(** [date.toordinal]: 0001-01-01 is day 1. *)
Definition ymd2ord (y m d : Z) : Z :=
  days_before_year y + days_before_month y m + d.

(** What the [datetime] constructor accepts. *)
Definition datetime_ok (d : datetime) : bool :=
  (1 <=? year d) && (year d <=? 9999)
  && (1 <=? month d) && (month d <=? 12)
  && (1 <=? day d) && (day d <=? days_in_month (year d) (month d))
  && (0 <=? hour d) && (hour d <? 24)
  && (0 <=? minute d) && (minute d <? 60)
  && (0 <=? second d) && (second d <? 60)
  && (0 <=? microsecond d) && (microsecond d <? 1000000).

(** Microseconds from 0001-01-01T00:00:00 to the wall-clock reading. *)
Definition wall_clock (d : datetime) : Z :=
  (((ymd2ord (year d) (month d) (day d) - 1) * 24 + hour d) * 60
     + minute d) * 60 * 1000000
  + second d * 1000000 + microsecond d.

(** The instant a value denotes, in microseconds of UTC; a naive value
    is read as UTC. *)
Definition utc_instant (d : datetime) : Z :=
  wall_clock d - default 0 (tzinfo d) * 1000000.

(** [d.replace(tzinfo=None)]: the fields stay, the offset is dropped. *)
Definition replace_tzinfo_None (d : datetime) : datetime :=
  mk_datetime (year d) (month d) (day d)
              (hour d) (minute d) (second d) (microsecond d) None.

Definition same_fields (a b : datetime) : bool :=
  bool_decide (replace_tzinfo_None a = replace_tzinfo_None b).

(** [==] on two datetimes: naive values compare by fields, aware values
    by instant, and a naive value never equals an aware one. *)
Definition datetime_eq (a b : datetime) : bool :=
  match tzinfo a, tzinfo b with
  | None, None => same_fields a b
  | Some oa, Some ob =>
      if oa =? ob then same_fields a b else utc_instant a =? utc_instant b
  | _, _ => false
  end.

(** [==] on values; [True == 1] as in Python. *)
Definition py_eq (a b : Value) : bool :=
  match a, b with
  | VNone, VNone => true
  | VBool x, VBool y => bool_decide (x = y)
  | VBool x, VInt n | VInt n, VBool x => (if x then 1 else 0) =? n
  | VInt n, VInt m => n =? m
  | VStr s, VStr t => bool_decide (s = t)
  | VDateTime d, VDateTime d' => datetime_eq d d'
  | _, _ => false
  end.

Local Close Scope Z_scope.

(** ** Dictionaries of incoming data *)

(** A Python [dict] in insertion order. *)
Abbreviation Dict := (list (string * Value)).

Definition dict_keys (data : Dict) : list string := data.*1.

(** [data.get(key, None)] *)
Fixpoint dict_get (data : Dict) (key : string) : option Value :=
  match data with
  | [] => None
  | (k, v) :: rest => if decide (k = key) then Some v else dict_get rest key
  end.

(** [key in data] *)
Definition dict_contains (data : Dict) (key : string) : bool :=
  bool_decide (is_Some (dict_get data key)).

(** [data[key]] *)
Definition dict_getitem (data : Dict) (key : string) : result Value :=
  match dict_get data key with
  | Some v => Ok v
  | None => Raise (KeyError key)
  end.

(** ** admin_deserialize_add and admin_deserialize_update *)

Section Deserialize.

(** [dateutil.parser.parse] on a string: the datetime read, or
    [None] where the parser rejects the string. *)
Variable dateutil_parse : string → option datetime.

(** [dateutil.parser.parse(value)] on any value. *)
Definition parse (value : Value) : result datetime :=
  match value with
  | VStr s =>
      match dateutil_parse s with
      | Some d => Ok d
      | None => Raise ParserError
      end
  | _ => Raise TypeError
  end.

(** The names that the plain branch accepts. *)
Definition allowed_fieldnames (cls : Class) (add : bool) : gset string :=
  if add then
    list_to_set (MANDATORY_FIELDS cls)
    ∪ list_to_set (WRITEABLE_FIELDS cls)
    ∪ list_to_set (WRITEABLE_ONCE_FIELDS cls)
  else list_to_set (WRITEABLE_FIELDS cls).

(** The body of the loop over [data.keys()]. *)
Definition update_field (cls : Class) (fieldnames : gset string)
    (data : Dict) (self : Entity) (fieldname : string) : result Entity :=
  match custom_deserializers cls !! fieldname with
  | Some deserializer =>
      let value := default VNone (dict_get data fieldname) in
      Ok (deserializer self value)
  | None =>
      if bool_decide (fieldname ∈ fieldnames) && hasattr self fieldname
      then
        current ← getattr self fieldname;
        new_value ← dict_getitem data fieldname;
        new_value ←
          match current with
          | VDateTime _ =>
              raw ← dict_getitem data fieldname;
              new_value ← parse raw;
              Ok (VDateTime (replace_tzinfo_None new_value))
          | _ => Ok new_value
          end;
        if negb (py_eq current new_value) then
          raw ← dict_getitem data fieldname;
          Ok (setattr self fieldname raw)
        else Ok self
      else Ok self
  end.

Definition admin_deserialize_update (cls : Class) (self : Entity)
    (data : Dict) (add : bool) : result Entity :=
  let fieldnames := allowed_fieldnames cls add in
  for_each (update_field cls fieldnames data) (dict_keys data) self.

(** The check at the head of [admin_deserialize_add]. *)
Fixpoint check_mandatory (fields : list string) (data : Dict)
    : result unit :=
  match fields with
  | [] => Ok ()
  | fieldname :: rest =>
      if negb (dict_contains data fieldname) then
        Raise (ValidationException
                 ("Missing necessary field: " ++ fieldname))
      else check_mandatory rest data
  end.

Definition admin_deserialize_add (cls : Class) (data : Dict)
    : result Entity :=
  _ ← check_mandatory (MANDATORY_FIELDS cls) data;
  let item := new_instance cls in
  admin_deserialize_update cls item data true.

End Deserialize.

(** ** The query-filter builder *)

(** [s.split(sep)] for a one-character separator. *)
Fixpoint split (sep : ascii) (s : string) : list string :=
  match s with
  | EmptyString => [""]
  | String c rest =>
      if decide (c = sep) then "" :: split sep rest
      else match split sep rest with
           | bit :: bits => String c bit :: bits
           | [] => [String c ""]
           end
  end.

(** Request arguments: a multi-valued dictionary, each key with the
    list of values supplied under it. *)
Abbreviation MultiDict := (list (string * list string)).

Fixpoint getlist (args : MultiDict) (key : string) : list string :=
  match args with
  | [] => []
  | (k, vs) :: rest => if decide (k = key) then vs else getlist rest key
  end.

(** [args[key]]: the first value under the key. *)
Definition getitem (args : MultiDict) (key : string) : result string :=
  match getlist args key with
  | v :: _ => Ok v
  | [] => Raise (KeyError key)
  end.

Inductive Condition :=
  | GreaterThanOrEqual | GreaterThan | LessThanOrEqual | LessThan.

Definition CONDITION_MAPPING : list (string * Condition) :=
  [("greaterthanorequal", GreaterThanOrEqual);
   ("greaterthan", GreaterThan);
   ("lessthanorequal", LessThanOrEqual);
   ("lessthan", LessThan)].

Fixpoint condition_lookup (table : list (string * Condition)) (name : string)
    : option Condition :=
  match table with
  | [] => None
  | (k, c) :: rest =>
      if decide (k = name) then Some c else condition_lookup rest name
  end.

(** The predicates handed to the query, as expressions over the
    columns of the class. *)
Inductive FilterArg :=
  | FEquals (field : string) (value : Value)
  | FMethod (field method : string) (pattern : string)
  | FIn (field : string) (values : list string)
  | FCondition (c : Condition) (field : string) (value : string).

#[global] Instance Condition_eq_dec : EqDecision Condition.
Proof. solve_decision. Defined.
#[global] Instance FilterArg_eq_dec : EqDecision FilterArg.
Proof. solve_decision. Defined.

Definition cls_hasattr (cls : Class) (name : string) : bool :=
  bool_decide (is_Some (class_attrs cls !! name)).

(** [getattr(cls, name)] used as a column: anything else has none of
    the column's attributes. *)
Definition cls_column (cls : Class) (name attr : string) : result ColumnType :=
  match class_attrs cls !! name with
  | Some (Column typ) => Ok typ
  | Some NonColumn => Raise (AttributeError attr)
  | None => Raise (AttributeError name)
  end.

Definition unknown_filter : exn := Exception "Unknown filter parameter".

(** The body of the loop over [args.keys()]. *)
Definition filter_param (cls : Class) (args : MultiDict)
    (filter_args : list FilterArg) (key : string) : result (list FilterArg) :=
  let bits := split "."%char key in
  let bits0 := nth 0 bits "" in
  let bits1 := nth 1 bits "" in
  if cls_hasattr cls bits0 then
    if (2 <? List.length bits)%nat then Raise unknown_filter
    else if (List.length bits =? 2)%nat then
      if bool_decide (bits1 ∈ ["like"; "ilike"]) then
        value ← getitem args key;
        if negb (bool_decide (value = "")) then
          _ ← cls_column cls bits0 bits1;
          Ok (filter_args ++ [FMethod bits0 bits1 value])%list
        else Ok filter_args
      else if bool_decide (bits1 ∈ ["in"]) then
        if negb (bool_decide (getlist args key = [])) then
          _ ← cls_column cls bits0 "in_";
          Ok (filter_args ++ [FIn bits0 (getlist args key)])%list
        else Ok filter_args
      else
        match condition_lookup CONDITION_MAPPING bits1 with
        | Some condition =>
            value ← getitem args key;
            if negb (bool_decide (value = "")) then
              match class_attrs cls !! bits0 with
              | Some (Column _) =>
                  Ok (filter_args ++ [FCondition condition bits0 value])%list
              | _ => Raise TypeError
              end
            else Ok filter_args
        | None => Raise unknown_filter
        end
    else if (List.length bits =? 1)%nat then
      typ ← cls_column cls key "property";
      value ← getitem args key;
      let value :=
        match typ with
        | Boolean =>
            if bool_decide (value = "true") then VBool true
            else if bool_decide (value = "false") then VBool false
            else VStr value
        | OtherType => VStr value
        end in
      Ok (filter_args ++ [FEquals key value])%list
    else Ok filter_args
  else Ok filter_args.

(** [cls.active == True] *)
Definition active_is_true : FilterArg := FEquals "active" (VBool true).

Definition _args_to_filter_params (cls : Class) (args : MultiDict)
    : result (list FilterArg) :=
  filter_args ←
    (if cls_hasattr cls "active" then Ok [active_is_true]
     else Raise (AttributeError "active"));
  for_each (filter_param cls args) args.*1 filter_args.

(** [store.session.query(cls)] filtered by the unpacked [filter_args]:
    the query keeps the conjunction of its predicates. *)
Record Query := { query_filters : list FilterArg }.

Definition _args_to_query (cls : Class) (args : MultiDict)
    (requester : option Requester) : result Query :=
  filter_args ← _args_to_filter_params cls args;
  Ok {| query_filters := filter_args |}.

Definition args_to_query (cls : Class) (args : MultiDict)
    (requester : option Requester) : result Query :=
  _args_to_query cls args requester.

Section Rows.

(** How the database decides a predicate on a row. *)
Variable holds : FilterArg → Entity → bool.

(** The rows that a query returns from a table. *)
Definition query_all (q : Query) (table : list Entity) : list Entity :=
  List.filter (λ row, forallb (λ f, holds f row) (query_filters q)) table.

End Rows.

(** ** ISO-8601 timestamps

    [dateutil.parser.parse] is a parameter of the development.  On the
    timestamps [YYYY-MM-DDTHH:MM:SS], with [T] or a blank between date
    and time and an optional [Z] or [+HH:MM] / [-HH:MM] suffix, it reads
    the fields as written and puts the suffix in [tzinfo]; [iso_parse]
    is that reader, used to run the deserialiser on concrete data. *)

Local Open Scope Z_scope.

Definition digit (c : ascii) : option Z :=
  let n := Z.of_nat (nat_of_ascii c) in
  if (48 <=? n) && (n <=? 57) then Some (n - 48) else None.

Fixpoint number (acc : Z) (cs : list ascii) : option Z :=
  match cs with
  | [] => Some acc
  | c :: cs => d ← digit c; number (10 * acc + d) cs
  end.

(** The [len] digits from position [start]. *)
Definition digits_at (cs : list ascii) (start len : nat) : option Z :=
  let field := take len (drop start cs) in
  if bool_decide (List.length field = len) then number 0 field else None.

Definition char_in (cs : list ascii) (pos : nat) (allowed : list ascii)
    : option unit :=
  c ← cs !! pos; if bool_decide (c ∈ allowed) then Some () else None.

Definition iso_suffix (cs : list ascii) : option (option Z) :=
  match cs with
  | [] => Some None
  | ["Z"%char] => Some (Some 0)
  | sign :: rest =>
      sgn ← (if bool_decide (sign = "+"%char) then Some 1
             else if bool_decide (sign = "-"%char) then Some (-1)
             else None);
      hh ← digits_at rest 0 2;
      _ ← char_in rest 2 [":"%char];
      mm ← digits_at rest 3 2;
      if bool_decide (List.length rest = 5%nat)
      then Some (Some (sgn * (hh * 3600 + mm * 60)))
      else None
  end.

Definition iso_fields (s : string) : option datetime :=
  let cs := list_ascii_of_string s in
  y ← digits_at cs 0 4;
  _ ← char_in cs 4 ["-"%char];
  m ← digits_at cs 5 2;
  _ ← char_in cs 7 ["-"%char];
  d ← digits_at cs 8 2;
  _ ← char_in cs 10 ["T"%char; " "%char];
  hh ← digits_at cs 11 2;
  _ ← char_in cs 13 [":"%char];
  mi ← digits_at cs 14 2;
  _ ← char_in cs 16 [":"%char];
  ss ← digits_at cs 17 2;
  tz ← iso_suffix (drop 19 cs);
  Some (mk_datetime y m d hh mi ss 0 tz).

Definition iso_parse (s : string) : option datetime :=
  d ← iso_fields s; if datetime_ok d then Some d else None.

Local Close Scope Z_scope.

(** ** Notions used in the statements *)

(** A key of the comprehension has a value: a custom serializer is
    registered for it, or the entity has the attribute. *)
Definition readable (cls : Class) (self : Entity) (key : string) : Prop :=
  is_Some (custom_serializers cls !! key) ∨ is_Some (self !! key).

#[global] Instance readable_dec cls self key :
  Decision (readable cls self key).
Proof. unfold readable. apply _. Defined.

(** Two calls of [delete] in a row, with the calls they make. *)
Definition delete_twice (self : Entity) (first second : option Requester)
    : result (Entity * list event) :=
  '(self, calls1) ← delete self first;
  '(self, calls2) ← delete self second;
  Ok (self, calls1 ++ calls2)%list.

Definition is_on_delete (e : event) : bool :=
  match e with
  | OnDelete _ _ => true
  | SessionAdd _ => false
  end.

(** The operators that a two-segment filter key may name. *)
Definition OPERATORS : list string :=
  (["like"; "ilike"; "in"] ++ CONDITION_MAPPING.*1)%list.

(** The first segment of a filter key. *)
Definition base_field (key : string) : string :=
  nth 0 (split "."%char key) "".

(** A filter key that the builder rejects. *)
Definition malformed (key : string) : Prop :=
  let bits := split "."%char key in
  (2 < List.length bits)%nat
  ∨ (List.length bits = 2%nat ∧ nth 1 bits "" ∉ OPERATORS).

#[global] Instance malformed_dec key : Decision (malformed key).
Proof. unfold malformed. apply _. Defined.

(** The key names nothing on the class, or a mapped column. *)
Definition names_column_or_nothing (cls : Class) (key : string) : Prop :=
  class_attrs cls !! base_field key ≠ Some NonColumn.

#[global] Instance names_column_or_nothing_dec cls key :
  Decision (names_column_or_nothing cls key).
Proof. unfold names_column_or_nothing. apply _. Defined.

(** ** A sample class *)

Definition User : Class := {|
  MANDATORY_FIELDS := ["name"; "email"];
  WRITEABLE_ONCE_FIELDS := ["email"];
  WRITEABLE_FIELDS := ["name"; "bio"; "date_created"];
  STANDARD_READABLE_FIELDS := ["id"; "name"; "bio"];
  ADMIN_READABLE_FIELDS :=
    ["id"; "name"; "bio"; "email"; "date_created"; "active"];
  PERMISSIONS := {| all_can_read_many := false;
                    standard_can_read_many := false;
                    admin_can_delete := false |};
  custom_serializers := ∅;
  custom_deserializers :=
    {[ "password" := λ self value, setattr self "password_hash" value ]};
  new_instance :=
    {[ "id" := VNone; "name" := VNone; "email" := VNone; "bio" := VNone;
       "password_hash" := VNone; "date_created" := VNone;
       "active" := VNone ]};
  class_attrs :=
    {[ "id" := Column OtherType; "name" := Column OtherType;
       "email" := Column OtherType; "bio" := Column OtherType;
       "password_hash" := Column OtherType;
       "date_created" := Column OtherType; "age" := Column OtherType;
       "active" := Column Boolean; "serialize" := NonColumn ]}
|}.

Definition noon : datetime := mk_datetime 2020 1 1 12 0 0 0 None.

Definition alice : Entity :=
  {[ "id" := VInt 7; "name" := VStr "Alice"; "email" := VStr "a@example.org";
     "bio" := VStr ""; "password_hash" := VStr "x";
     "date_created" := VDateTime noon; "active" := VBool true ]}.

Definition member : Requester := {| is_administrator := false |}.
Definition administrator : Requester := {| is_administrator := true |}.

(** Incoming data for a new user. *)
Definition registration : Dict :=
  [("name", VStr "Bob"); ("email", VStr "bob@example.org");
   ("password", VStr "secret"); ("id", VInt 99)].

(** Some date/time values: one naive, one two hours east of UTC, one
    at UTC. *)
Definition half_past_eight : datetime :=
  mk_datetime 2021 6 15 8 30 0 0 None.

Definition two_pm_plus_two : datetime :=
  mk_datetime 2020 1 1 14 0 0 0 (Some 7200%Z).

Definition noon_utc : datetime := mk_datetime 2020 1 1 12 0 0 0 (Some 0%Z).

(** ** admin_deserialize *)

Section AdminDeserialize.

Variable dateutil_parse : string → option datetime.

(** [store.session.query(cls).filter(cls.id == value).first()]: the
    stored entity that the session finds for an id, if any. *)
Variable first_by_id : Value → option Entity.

(** The entity returned is the stored one after the update, a new one
    on the add path, or Python's [None]. *)
Definition admin_deserialize (cls : Class) (data : Dict)
    : result (option Entity) :=
  let item_id := default VNone (dict_get data "id") in
  if negb (bool_decide (item_id = VNone)) then
    id ← dict_getitem data "id";
    match first_by_id id with
    | Some item =>
        item ← admin_deserialize_update dateutil_parse cls item data false;
        Ok (Some item)
    | None => Ok None
    end
  else
    item ← admin_deserialize_add dateutil_parse cls data;
    Ok (Some item).

End AdminDeserialize.

(** ** Further notions used in the statements *)

(** The value that [serialize] gives a key. *)
Definition serialized (cls : Class) (self : Entity)
    (requester : option Requester) (key : string) : option Value :=
  match custom_serializers cls !! key with
  | Some f => Some (f self requester)
  | None => self !! key
  end.

Definition is_datetime (v : Value) : bool :=
  match v with
  | VDateTime _ => true
  | _ => false
  end.


(** The value of an equality filter: on a Boolean column the strings
    true and false become booleans. *)
Definition equality_value (typ : ColumnType) (value : string) : Value :=
  match typ with
  | Boolean =>
      if bool_decide (value = "true") then VBool true
      else if bool_decide (value = "false") then VBool false
      else VStr value
  | OtherType => VStr value
  end.

(** An entity that lacks most of the attributes of [User]. *)
Definition stub : Entity :=
  {[ "id" := VInt 8; "name" := VStr "Bob"; "active" := VBool true ]}.

(** A session that holds [alice] under her id and nothing else. *)
Definition sample_store (id : Value) : option Entity :=
  if decide (id = VInt 7) then Some alice else None.

(** [alice] after an update of her name and creation date. *)
Definition renamed : Entity :=
  <["date_created" := VStr "2021-06-15T08:30:00"]>
    (<["name" := VStr "Al"]> alice).

(** What a member is shown of [alice]. *)
Definition alice_for_members : gmap string Value :=
  {[ "id" := VInt 7; "name" := VStr "Alice"; "bio" := VStr "" ]}.

(** A name without a dot. *)
Fixpoint dotless (s : string) : bool :=
  match s with
  | EmptyString => true
  | String c rest => negb (bool_decide (c = "."%char)) && dotless rest
  end.

(** * Properties *)

(** ** The exception monad *)

Lemma bind_Ok {A B} (r : result A) (k : A → result B) b :
  r ≫= k = Ok b ↔ ∃ a, r = Ok a ∧ k a = Ok b.
Proof.
  destruct r as [a|e]; simpl; split.
  - eauto.
  - by intros (a' & [= ->] & ?).
  - done.
  - by intros (a' & ? & ?).
Qed.

Lemma bind_Raise {A B} (r : result A) (k : A → result B) e :
  r ≫= k = Raise e ↔ r = Raise e ∨ ∃ a, r = Ok a ∧ k a = Raise e.
Proof.
  destruct r as [a|e']; simpl; split.
  - eauto.
  - by intros [[=] | (a' & [= ->] & ?)].
  - intros [= ->]. by left.
  - by intros [[= ->] | (a' & [=] & _)].
Qed.

(** ** Permissions *)

Lemma has_delete_rights_admin cls requester :
  has_delete_rights cls requester = has_admin_rights requester.
Proof.
  destruct requester as [[[]]|]; simpl; [done | | done].
  by rewrite andb_false_r.
Qed.

(** ** serialize *)

Lemma serialize_value_Ok cls self requester key :
  readable cls self key ↔ ∃ v, serialize_value cls self requester key = Ok v.
Proof.
  unfold readable, serialize_value, getattr.
  destruct (custom_serializers cls !! key) as [f|]; [by split; eauto|].
  destruct (self !! key) as [v|]; split.
  - eauto.
  - intros _. right. eauto.
  - intros [[? [=]]|[? [=]]].
  - intros [? [=]].
Qed.

Lemma serialize_items_fst cls self requester keys items :
  serialize_items cls self requester keys = Ok items → items.*1 = keys.
Proof.
  revert items. induction keys as [|key keys IH]; intros items; simpl.
  - by intros [= <-].
  - intros (v & _ & (rest & Hrest & [= <-])%bind_Ok)%bind_Ok.
    simpl. f_equal. by apply IH.
Qed.

Lemma serialize_items_Ok cls self requester keys :
  Forall (readable cls self) keys ↔
  ∃ items, serialize_items cls self requester keys = Ok items.
Proof.
  induction keys as [|key keys IH]; simpl.
  - split; eauto.
  - rewrite Forall_cons, IH, (serialize_value_Ok _ _ requester). split.
    + intros [[v ->] [items ->]]. simpl. eauto.
    + intros [items (v & -> & (rest & -> & _)%bind_Ok)%bind_Ok]. eauto.
Qed.

(** The comprehension over a key set: it yields a dictionary exactly
    when every key has a value, and the dictionary has those keys. *)
Lemma comprehension_dom cls self requester (keys : gset string)
    (m : gmap string Value) :
  (items ← serialize_items cls self requester (elements keys);
   Ok (Some (list_to_map items))) = Ok (Some m) →
  dom m = keys.
Proof.
  intros (items & Hitems & [= <-])%bind_Ok.
  rewrite dom_list_to_map_L, (serialize_items_fst _ _ _ _ _ Hitems).
  apply list_to_set_elements_L.
Qed.

Lemma comprehension_Ok cls self requester (keys : gset string) :
  set_Forall (readable cls self) keys →
  ∃ m : gmap string Value,
    (items ← serialize_items cls self requester (elements keys);
     Ok (Some (list_to_map items))) = Ok (Some m).
Proof.
  intros Hall.
  destruct (proj1 (serialize_items_Ok cls self requester (elements keys)))
    as [items Hitems].
  { apply Forall_forall. intros k Hk. apply Hall. set_solver. }
  exists (list_to_map items). by rewrite Hitems.
Qed.

Lemma serialize_Some cls self r exclude :
  serialize cls self (Some r) exclude
  = (items ← serialize_items cls self (Some r)
       (elements (serialize_keys self
          (if is_administrator r then ADMIN_READABLE_FIELDS cls
           else STANDARD_READABLE_FIELDS cls) exclude));
     Ok (Some (list_to_map items))).
Proof. unfold serialize. simpl. by destruct (is_administrator r). Qed.

Lemma serialize_dom cls self r exclude (m : gmap string Value) :
  serialize cls self (Some r) exclude = Ok (Some m) →
  dom m = serialize_keys self
            (if is_administrator r then ADMIN_READABLE_FIELDS cls
             else STANDARD_READABLE_FIELDS cls) exclude.
Proof. rewrite serialize_Some. apply comprehension_dom. Qed.

(** C1.  [serialize] follows the permission tier of the requester: it
    returns [None] for a null requester; for an authenticated requester
    it never returns [None], any dictionary it returns has exactly the
    keys of the tier's list (STANDARD_READABLE_FIELDS for a
    non-administrator, ADMIN_READABLE_FIELDS for an administrator)
    minus the excluded names, plus id when the entity has one, and it
    does return that dictionary whenever each of these keys has a
    value. *)
Theorem serialize_by_tier (cls : Class) (self : Entity)
    (exclude : list string) :
  serialize cls self None exclude = Ok None
  ∧ ∀ r : Requester,
      let fieldnames :=
        if is_administrator r then ADMIN_READABLE_FIELDS cls
        else STANDARD_READABLE_FIELDS cls in
      let keys : gset string :=
        (list_to_set fieldnames ∖ list_to_set exclude)
        ∪ (if hasattr self "id" then {["id"]} else ∅) in
      serialize cls self (Some r) exclude ≠ Ok None
      ∧ (∀ m, serialize cls self (Some r) exclude = Ok (Some m) →
              dom m = keys)
      ∧ (set_Forall (readable cls self) keys →
         ∃ m, serialize cls self (Some r) exclude = Ok (Some m)
              ∧ dom m = keys).
Proof.
  split; [done |].
  intros r fieldnames keys. split; [| split].
  - rewrite serialize_Some. by intros (items & _ & [=])%bind_Ok.
  - apply serialize_dom.
  - intros Hall. rewrite serialize_Some.
    destruct (comprehension_Ok cls self (Some r) keys Hall) as [m Hm].
    exists m. split; [done |]. by apply comprehension_dom in Hm.
Qed.

Lemma serialize_by_tier_witness :
  ∃ m, serialize User alice (Some member) ["bio"] = Ok (Some m)
       ∧ dom m = (list_to_set ["id"; "name"; "bio"] ∖ list_to_set ["bio"])
                 ∪ {["id"]}.
Proof.
  apply (proj2 (proj2 (proj2 (serialize_by_tier User alice ["bio"]) member))).
  apply (bool_decide_unpack _). vm_compute. exact I.
Defined.

(** C9.  When the entity has an id attribute, every dictionary that
    [serialize] returns has the key id, also when id is excluded. *)
Theorem serialize_keeps_id (cls : Class) (self : Entity)
    (requester : option Requester) (exclude : list string)
    (m : gmap string Value) :
  is_Some (self !! "id") →
  serialize cls self requester exclude = Ok (Some m) →
  "id" ∈ dom m.
Proof.
  intros Hid Hser. destruct requester as [r|]; [| done].
  rewrite (serialize_dom _ _ _ _ _ Hser). unfold serialize_keys, hasattr.
  rewrite bool_decide_eq_true_2 by done.
  set_solver.
Qed.

Lemma serialize_keeps_id_witness :
  "id" ∈ dom ({[ "id" := VInt 7; "name" := VStr "Alice";
                 "bio" := VStr "" ]} : gmap string Value).
Proof.
  apply (serialize_keeps_id User alice (Some member) ["id"]).
  - by exists (VInt 7).
  - vm_compute. reflexivity.
Defined.

(** ** delete *)

Lemma delete_inactive self requester active :
  self !! "active" = Some active → truthy active = false →
  delete self requester = Ok (self, []).
Proof.
  intros Hget Hfalse. unfold delete, getattr.
  by rewrite Hget; simpl; rewrite Hfalse.
Qed.

Lemma delete_active self requester active :
  self !! "active" = Some active → truthy active = true →
  delete self requester
  = Ok (setattr self "active" (VBool false),
        [SessionAdd (setattr self "active" (VBool false));
         OnDelete (setattr self "active" (VBool false)) requester]).
Proof.
  intros Hget Htrue. unfold delete, getattr.
  by rewrite Hget; simpl; rewrite Htrue.
Qed.

Lemma delete_twice_active self first second active :
  self !! "active" = Some active → truthy active = true →
  delete_twice self first second
  = Ok (setattr self "active" (VBool false),
        [SessionAdd (setattr self "active" (VBool false));
         OnDelete (setattr self "active" (VBool false)) first]).
Proof.
  intros Hget Htrue. unfold delete_twice.
  rewrite (delete_active _ _ _ Hget Htrue). simpl.
  by rewrite (delete_inactive _ second (VBool false))
    by (by unfold setattr; rewrite ?lookup_insert_eq).
Qed.

Lemma delete_twice_inactive self first second active :
  self !! "active" = Some active → truthy active = false →
  delete_twice self first second = Ok (self, []).
Proof.
  intros Hget Hfalse. unfold delete_twice.
  rewrite (delete_inactive _ _ _ Hget Hfalse). simpl.
  by rewrite (delete_inactive _ _ _ Hget Hfalse).
Qed.

(** C8.  [delete] is idempotent.  On an entity that is already
    inactive it changes nothing, adds nothing to the session and does
    not call [on_delete]; on an active one it sets active to False,
    adds the entity to the session and calls [on_delete] once.  Two
    calls in a row therefore end with active false and with at most
    one call of the hook, and they leave the entity as one call does. *)
Theorem delete_idempotent (self : Entity) (active : Value)
    (first second : option Requester) :
  self !! "active" = Some active →
  (truthy active = false → delete self first = Ok (self, []))
  ∧ (truthy active = true →
     delete self first
     = Ok (<["active" := VBool false]> self,
           [SessionAdd (<["active" := VBool false]> self);
            OnDelete (<["active" := VBool false]> self) first]))
  ∧ ∃ self' calls,
      delete_twice self first second = Ok (self', calls)
      ∧ (∃ calls1, delete self first = Ok (self', calls1))
      ∧ (∃ flag, self' !! "active" = Some flag ∧ truthy flag = false)
      ∧ (List.length (List.filter is_on_delete calls) ≤ 1)%nat.
Proof.
  intros Hget. split; [| split].
  - by apply delete_inactive.
  - by apply delete_active.
  - destruct (truthy active) eqn:Hactive.
    + eexists _, _. split; [by eapply delete_twice_active |].
      split; [eexists; by eapply delete_active |].
      split; [| simpl; lia].
      exists (VBool false). unfold setattr. by rewrite lookup_insert_eq.
    + eexists _, _. split; [by eapply delete_twice_inactive |].
      split; [eexists; by eapply delete_inactive |].
      split; [eauto | simpl; lia].
Qed.

Lemma delete_idempotent_witness :
  ∃ self' calls,
    delete_twice alice (Some administrator) None = Ok (self', calls)
    ∧ (∃ calls1, delete alice (Some administrator) = Ok (self', calls1))
    ∧ (∃ flag, self' !! "active" = Some flag ∧ truthy flag = false)
    ∧ (List.length (List.filter is_on_delete calls) ≤ 1)%nat.
Proof.
  apply (delete_idempotent alice (VBool true) (Some administrator) None).
  reflexivity.
Defined.

(** C4 (as the code has it).  [delete] does not consult
    [has_delete_rights]: a requester without delete rights, a null one
    included, deactivates an active entity, and the entity is added to
    the session and [on_delete] is called with that requester.  Delete
    rights are those of an administrator; enforcing them is left to
    the caller. *)
Theorem delete_ignores_rights (cls : Class) (self : Entity) (active : Value)
    (requester : option Requester) :
  has_delete_rights cls requester = false →
  self !! "active" = Some active →
  truthy active = true →
  has_admin_rights requester = false
  ∧ delete self requester
    = Ok (<["active" := VBool false]> self,
          [SessionAdd (<["active" := VBool false]> self);
           OnDelete (<["active" := VBool false]> self) requester]).
Proof.
  intros Hrights Hget Htrue. split.
  - by rewrite <- (has_delete_rights_admin cls).
  - by apply (delete_active _ _ active).
Qed.

Lemma delete_ignores_rights_witness :
  has_admin_rights (Some member) = false
  ∧ delete alice (Some member)
    = Ok (<["active" := VBool false]> alice,
          [SessionAdd (<["active" := VBool false]> alice);
           OnDelete (<["active" := VBool false]> alice) (Some member)]).
Proof.
  apply (delete_ignores_rights User alice (VBool true) (Some member));
    reflexivity.
Defined.

(** C4 as stated fails: the null requester has no delete rights, yet
    [delete] deactivates the active entity, adds it to the session and
    calls the hook. *)
Lemma delete_not_gated :
  has_delete_rights User None = false
  ∧ alice !! "active" = Some (VBool true)
  ∧ ∃ self' calls,
      delete alice None = Ok (self', calls)
      ∧ self' !! "active" = Some (VBool false)
      ∧ calls = [SessionAdd self'; OnDelete self' None].
Proof.
  split; [reflexivity |]. split; [reflexivity |].
  eexists _, _. split; [reflexivity |]. split; reflexivity.
Qed.

(** ** Dates *)

Section Calendar.

Local Open Scope Z_scope.

Lemma is_leap_spec y :
  is_leap y = true ↔ y mod 4 = 0 ∧ (y mod 100 ≠ 0 ∨ y mod 400 = 0).
Proof.
  unfold is_leap.
  by rewrite andb_true_iff, orb_true_iff, negb_true_iff, !Z.eqb_eq, Z.eqb_neq.
Qed.

Lemma days_before_year_succ y :
  days_before_year (y + 1)
  = days_before_year y + 365 + (if is_leap y then 1 else 0).
Proof.
  unfold days_before_year. replace (y + 1 - 1) with y by lia.
  destruct (is_leap y) eqn:Hleap.
  - apply is_leap_spec in Hleap. Z.div_mod_to_equations. lia.
  - assert (¬ (y mod 4 = 0 ∧ (y mod 100 ≠ 0 ∨ y mod 400 = 0))) as Hn.
    { by rewrite <- is_leap_spec, Hleap. }
    Z.div_mod_to_equations. lia.
Qed.

Lemma days_before_year_mono y y' :
  y ≤ y' → days_before_year y ≤ days_before_year y'.
Proof. unfold days_before_year. intros Hle. Z.div_mod_to_equations. lia. Qed.

Lemma month_cases m :
  1 ≤ m ≤ 12 →
  m = 1 ∨ m = 2 ∨ m = 3 ∨ m = 4 ∨ m = 5 ∨ m = 6 ∨
  m = 7 ∨ m = 8 ∨ m = 9 ∨ m = 10 ∨ m = 11 ∨ m = 12.
Proof. lia. Qed.

(** The ordinals of a year lie after those of the years before it. *)
Lemma ymd2ord_year_range y m d :
  1 ≤ m ≤ 12 → 1 ≤ d ≤ days_in_month y m →
  days_before_year y < ymd2ord y m d ≤ days_before_year (y + 1).
Proof.
  intros Hm%month_cases Hd. rewrite days_before_year_succ. unfold ymd2ord.
  unfold days_before_month, days_in_month in *.
  destruct (is_leap y);
    repeat (destruct Hm as [-> | Hm]; [simpl in *; lia |]);
    subst m; simpl in *; lia.
Qed.

Lemma ymd2ord_inj y m d y' m' d' :
  1 ≤ m ≤ 12 → 1 ≤ d ≤ days_in_month y m →
  1 ≤ m' ≤ 12 → 1 ≤ d' ≤ days_in_month y' m' →
  ymd2ord y m d = ymd2ord y' m' d' → y = y' ∧ m = m' ∧ d = d'.
Proof.
  intros Hm Hd Hm' Hd' Heq.
  pose proof (ymd2ord_year_range y m d Hm Hd) as Hr.
  pose proof (ymd2ord_year_range y' m' d' Hm' Hd') as Hr'.
  assert (y = y') as <-.
  { destruct (Z.lt_trichotomy y y') as [Hlt | [-> | Hlt]]; [| done |].
    - pose proof (days_before_year_mono (y + 1) y'). lia.
    - pose proof (days_before_year_mono (y' + 1) y). lia. }
  split; [done |]. unfold ymd2ord in Heq.
  apply month_cases in Hm, Hm'.
  unfold days_before_month, days_in_month in *.
  destruct (is_leap y);
    repeat (destruct Hm as [-> | Hm]); try subst m;
    repeat (destruct Hm' as [-> | Hm']); try subst m';
    simpl in *; lia.
Qed.

Lemma datetime_ok_bounds d :
  datetime_ok d = true →
  (1 ≤ month d ≤ 12) ∧ (1 ≤ day d ≤ days_in_month (year d) (month d))
  ∧ (0 ≤ hour d < 24) ∧ (0 ≤ minute d < 60) ∧ (0 ≤ second d < 60)
  ∧ (0 ≤ microsecond d < 1000000).
Proof.
  unfold datetime_ok. rewrite !andb_true_iff, !Z.leb_le, !Z.ltb_lt. lia.
Qed.

(** Valid datetimes with the same wall-clock reading have the same
    fields. *)
Lemma wall_clock_inj a b :
  datetime_ok a = true → datetime_ok b = true →
  wall_clock a = wall_clock b →
  replace_tzinfo_None a = replace_tzinfo_None b.
Proof.
  intros (Hm & Hd & Hh & Hmi & Hs & Hus)%datetime_ok_bounds
         (Hm' & Hd' & Hh' & Hmi' & Hs' & Hus')%datetime_ok_bounds Heq.
  unfold wall_clock in Heq.
  assert (ymd2ord (year a) (month a) (day a)
          = ymd2ord (year b) (month b) (day b)
          ∧ hour a = hour b ∧ minute a = minute b ∧ second a = second b
          ∧ microsecond a = microsecond b) as (Hord & ? & ? & ? & ?) by lia.
  apply ymd2ord_inj in Hord as (? & ? & ?); [| done..].
  unfold replace_tzinfo_None. congruence.
Qed.

Lemma same_instant_same_fields a b :
  datetime_ok a = true → datetime_ok b = true →
  tzinfo a = None ∨ tzinfo a = Some 0 →
  tzinfo b = None ∨ tzinfo b = Some 0 →
  utc_instant a = utc_instant b →
  same_fields a b = true.
Proof.
  intros Ha Hb Hza Hzb Heq. apply bool_decide_eq_true.
  apply wall_clock_inj; [done.. |]. unfold utc_instant in Heq.
  destruct Hza as [Hza | Hza], Hzb as [Hzb | Hzb];
    rewrite Hza, Hzb in Heq; simpl in Heq; lia.
Qed.

End Calendar.

(** ** Dictionaries and loops *)

Lemma dict_get_Some_keys (data : Dict) key :
  is_Some (dict_get data key) ↔ key ∈ dict_keys data.
Proof.
  unfold dict_keys. induction data as [|[k v] data IH]; simpl.
  - split; [by intros [? [=]] | by intros ?%elem_of_nil].
  - rewrite elem_of_cons. destruct (decide (k = key)) as [-> | Hne].
    + split; eauto.
    + rewrite IH. split; [by right | by intros [? | ?]].
Qed.

Lemma dict_contains_keys (data : Dict) key :
  dict_contains data key = true ↔ key ∈ dict_keys data.
Proof.
  unfold dict_contains. by rewrite bool_decide_eq_true, dict_get_Some_keys.
Qed.

Lemma dict_contains_not_keys (data : Dict) key :
  dict_contains data key = false ↔ key ∉ dict_keys data.
Proof. rewrite <- dict_contains_keys. by destruct (dict_contains data key). Qed.

Lemma for_each_Raise {A S} (body : S → A → result S) items s e :
  for_each body items s = Raise e →
  ∃ s' x, x ∈ items ∧ body s' x = Raise e.
Proof.
  revert s. induction items as [|x items IH]; intros s; simpl; [done |].
  intros [Hx | (s' & _ & Hrest)]%bind_Raise.
  - exists s, x. split; [left | done].
  - destruct (IH _ Hrest) as (s'' & y & Hy & Hbody).
    exists s'', y. split; [by right | done].
Qed.

Lemma for_each_id {A S} (body : S → A → result S) items s :
  Forall (λ x, body s x = Ok s) items → for_each body items s = Ok s.
Proof.
  induction 1 as [|x items Hx _ IH]; simpl; [done |]. by rewrite Hx.
Qed.

(** ** admin_deserialize_update *)

Section DeserializeProperties.

Variable dateutil_parse : string → option datetime.

Lemma parse_not_validation value msg :
  parse dateutil_parse value ≠ Raise (ValidationException msg).
Proof.
  destruct value; simpl; try done. by destruct (dateutil_parse s).
Qed.

(** A registered deserializer is called whatever the allowed names. *)
Lemma update_field_custom cls fieldnames data self key deserializer :
  custom_deserializers cls !! key = Some deserializer →
  update_field dateutil_parse cls fieldnames data self key
  = Ok (deserializer self (default VNone (dict_get data key))).
Proof. intros Hcustom. unfold update_field. by rewrite Hcustom. Qed.

(** Outside the allowed names, or without the attribute, nothing
    happens. *)
Lemma update_field_ignored cls fieldnames data self key :
  custom_deserializers cls !! key = None →
  ¬ (key ∈ fieldnames ∧ is_Some (self !! key)) →
  update_field dateutil_parse cls fieldnames data self key = Ok self.
Proof.
  intros Hcustom Hnot. unfold update_field, hasattr.
  rewrite Hcustom.
  destruct (bool_decide (key ∈ fieldnames)) eqn:Hin; [| done].
  destruct (bool_decide (is_Some (self !! key))) eqn:Hhas; [| done].
  apply bool_decide_eq_true in Hin, Hhas. by destruct Hnot.
Qed.

(** The plain branch on an allowed attribute of the entity. *)
Lemma update_field_plain cls fieldnames data self key current :
  custom_deserializers cls !! key = None →
  key ∈ fieldnames →
  self !! key = Some current →
  update_field dateutil_parse cls fieldnames data self key
  = (raw ← dict_getitem data key;
     new_value ←
       match current with
       | VDateTime _ =>
           d ← parse dateutil_parse raw;
           Ok (VDateTime (replace_tzinfo_None d))
       | _ => Ok raw
       end;
     if negb (py_eq current new_value)
     then Ok (setattr self key raw) else Ok self).
Proof.
  intros Hcustom Hin Hget. unfold update_field, hasattr, getattr.
  rewrite Hcustom, Hget, !bool_decide_eq_true_2 by eauto. simpl.
  destruct (dict_getitem data key) as [raw|e]; simpl; [| done].
  destruct current; simpl; try done.
Qed.

(** What the plain path can do to the entity. *)
Lemma update_field_effect cls fieldnames data self key self' :
  custom_deserializers cls !! key = None →
  update_field dateutil_parse cls fieldnames data self key = Ok self' →
  self' = self
  ∨ (key ∈ fieldnames ∧ is_Some (self !! key)
     ∧ ∃ raw, dict_get data key = Some raw ∧ self' = <[key := raw]> self).
Proof.
  intros Hcustom Hupd.
  destruct (decide (key ∈ fieldnames ∧ is_Some (self !! key)))
    as [[Hin [current Hget]] | Hnot].
  - rewrite (update_field_plain _ _ _ _ _ current) in Hupd by done.
    apply bind_Ok in Hupd as (raw & Hraw & Hupd).
    apply bind_Ok in Hupd as (new_value & _ & Hupd).
    unfold dict_getitem in Hraw.
    destruct (dict_get data key) as [raw'|] eqn:Hdict; [| done].
    injection Hraw as ->.
    destruct (negb (py_eq current new_value)); injection Hupd as <-.
    + right. eauto 6.
    + by left.
  - rewrite update_field_ignored in Hupd by done.
    injection Hupd as <-. by left.
Qed.

Lemma update_field_not_validation cls fieldnames data self key msg :
  update_field dateutil_parse cls fieldnames data self key
  ≠ Raise (ValidationException msg).
Proof.
  unfold update_field, getattr, dict_getitem.
  destruct (custom_deserializers cls !! key); [done |].
  destruct (_ && _); [| done].
  destruct (self !! key) as [current|]; simpl; [| done].
  destruct (dict_get data key) as [raw|]; simpl; [| done].
  destruct current; simpl;
    try (by destruct (negb _)).
  pose proof (parse_not_validation raw msg) as Hparse.
  destruct (parse dateutil_parse raw) as [d'|e]; simpl.
  - by destruct (negb _).
  - congruence.
Qed.

Lemma admin_deserialize_update_not_validation cls self data add msg :
  admin_deserialize_update dateutil_parse cls self data add
  ≠ Raise (ValidationException msg).
Proof.
  intros (s' & key & _ & Hbody)%for_each_Raise.
  by apply update_field_not_validation in Hbody.
Qed.

(** The loop without custom deserializers changes only allowed
    attributes that the entity has and that the data name. *)
Lemma for_each_update_frame cls fieldnames data keys self self' :
  Forall (λ key, custom_deserializers cls !! key = None) keys →
  for_each (update_field dateutil_parse cls fieldnames data) keys self = Ok self' →
  ∀ name, self' !! name ≠ self !! name →
          name ∈ keys ∧ name ∈ fieldnames ∧ is_Some (self !! name).
Proof.
  intros Hplain. revert self.
  induction Hplain as [|key keys Hkey _ IH]; intros self; simpl.
  - by intros [= ->] name.
  - intros (self1 & Hstep & Hrest)%bind_Ok name Hname.
    apply update_field_effect in Hstep; [| done].
    destruct Hstep as [-> | (Hin & Hhas & raw & _ & ->)].
    + destruct (IH _ Hrest name Hname) as (? & ? & ?).
      split; [by right | done].
    + destruct (decide (name = key)) as [-> | Hne].
      { split; [by left | done]. }
      destruct (IH _ Hrest name) as (? & ? & Hsome).
      { by rewrite lookup_insert_ne. }
      rewrite lookup_insert_ne in Hsome by done.
      split; [by right | done].
Qed.

Lemma check_mandatory_Ok fields data :
  check_mandatory fields data = Ok () ↔
  Forall (λ fieldname, fieldname ∈ dict_keys data) fields.
Proof.
  induction fields as [|f fields IH]; simpl.
  - split; [by constructor | done].
  - rewrite Forall_cons, <- IH, <- dict_contains_keys.
    destruct (dict_contains data f); simpl; [tauto |].
    split; [done | by intros [[=] _]].
Qed.

Lemma check_mandatory_Raise fields data e :
  check_mandatory fields data = Raise e →
  ∃ fieldname,
    fieldname ∈ fields ∧ (fieldname ∉ dict_keys data)
    ∧ e = ValidationException ("Missing necessary field: " ++ fieldname)%string.
Proof.
  induction fields as [|f fields IH]; simpl; [done |].
  destruct (dict_contains data f) eqn:Hf; simpl.
  - intros (g & ? & ? & ?)%IH. exists g. split; [by right | done].
  - intros [= <-]. exists f. split; [by left |].
    split; [by apply dict_contains_not_keys | done].
Qed.

Lemma check_mandatory_total fields data :
  check_mandatory fields data = Ok ()
  ∨ ∃ e, check_mandatory fields data = Raise e.
Proof. destruct (check_mandatory fields data) as [[]|e]; eauto. Qed.

(** C2.  [admin_deserialize_add] raises a ValidationException exactly
    when some name of MANDATORY_FIELDS is not a key of the data; the
    message then names a mandatory field that is missing; and when no
    mandatory field is missing the call is the update routine applied
    to a new instance with add=True. *)
Theorem admin_deserialize_add_mandatory (cls : Class) (data : Dict) :
  ((∃ msg, admin_deserialize_add dateutil_parse cls data
           = Raise (ValidationException msg))
   ↔ ∃ fieldname,
       fieldname ∈ MANDATORY_FIELDS cls ∧ fieldname ∉ dict_keys data)
  ∧ (∀ msg,
       admin_deserialize_add dateutil_parse cls data
       = Raise (ValidationException msg) →
       ∃ fieldname,
         fieldname ∈ MANDATORY_FIELDS cls ∧ (fieldname ∉ dict_keys data)
         ∧ msg = ("Missing necessary field: " ++ fieldname)%string)
  ∧ ((∀ fieldname,
        fieldname ∈ MANDATORY_FIELDS cls → fieldname ∈ dict_keys data) →
     admin_deserialize_add dateutil_parse cls data
     = admin_deserialize_update dateutil_parse cls (new_instance cls)
         data true).
Proof.
  assert (∀ msg,
    admin_deserialize_add dateutil_parse cls data
    = Raise (ValidationException msg) →
    ∃ fieldname,
      fieldname ∈ MANDATORY_FIELDS cls ∧ (fieldname ∉ dict_keys data)
      ∧ msg = ("Missing necessary field: " ++ fieldname)%string) as Hmsg.
  { intros msg. unfold admin_deserialize_add.
    intros [Hcheck | ([] & _ & Hupd)]%bind_Raise.
    - apply check_mandatory_Raise in Hcheck as (f & ? & ? & [= ->]). eauto.
    - by apply admin_deserialize_update_not_validation in Hupd. }
  split; [split |split].
  - intros [msg (f & ? & ? & _)%Hmsg]. eauto.
  - intros (f & Hf & Hmissing). unfold admin_deserialize_add.
    destruct (check_mandatory_total (MANDATORY_FIELDS cls) data)
      as [Hok | [e He]].
    + apply check_mandatory_Ok in Hok.
      rewrite Forall_forall in Hok. by destruct Hmissing; apply Hok.
    + rewrite He.
      apply check_mandatory_Raise in He as (g & _ & _ & ->). simpl. eauto.
  - done.
  - intros Hall. unfold admin_deserialize_add.
    by rewrite (proj2 (check_mandatory_Ok _ _))
      by (by apply Forall_forall).
Qed.

(** C3.  In [admin_deserialize_update] a key with a registered custom
    deserializer has that deserializer applied to the entity and the
    raw value, whatever the allowed names; any other key outside the
    allowed names (mandatory, writable and writable-once with add,
    writable alone without), or naming no attribute of the entity, is
    skipped without error; the plain path touches no attribute but the
    key's own; and a call on data without custom keys changes only
    attributes that are data keys, allowed, and present on the
    entity. *)
Theorem admin_deserialize_update_fields (cls : Class) (self : Entity)
    (data : Dict) (add : bool) :
  let allowed : gset string :=
    if add then
      list_to_set (MANDATORY_FIELDS cls)
      ∪ list_to_set (WRITEABLE_FIELDS cls)
      ∪ list_to_set (WRITEABLE_ONCE_FIELDS cls)
    else list_to_set (WRITEABLE_FIELDS cls) in
  (∀ key deserializer fieldnames,
     custom_deserializers cls !! key = Some deserializer →
     update_field dateutil_parse cls fieldnames data self key
     = Ok (deserializer self (default VNone (dict_get data key))))
  ∧ (∀ key value deserializer,
       custom_deserializers cls !! key = Some deserializer →
       admin_deserialize_update dateutil_parse cls self [(key, value)] add
       = Ok (deserializer self value))
  ∧ (∀ key,
       custom_deserializers cls !! key = None →
       ¬ (key ∈ allowed ∧ is_Some (self !! key)) →
       update_field dateutil_parse cls (allowed_fieldnames cls add)
         data self key = Ok self)
  ∧ (∀ key self',
       custom_deserializers cls !! key = None →
       update_field dateutil_parse cls (allowed_fieldnames cls add)
         data self key = Ok self' →
       ∀ name, self' !! name ≠ self !! name →
               name = key ∧ key ∈ allowed ∧ is_Some (self !! key))
  ∧ (∀ self',
       Forall (λ key, custom_deserializers cls !! key = None)
              (dict_keys data) →
       admin_deserialize_update dateutil_parse cls self data add
       = Ok self' →
       ∀ name, self' !! name ≠ self !! name →
               name ∈ dict_keys data ∧ name ∈ allowed
               ∧ is_Some (self !! name)).
Proof.
  intros allowed.
  change (allowed_fieldnames cls add) with allowed.
  split; [| split; [| split; [| split]]].
  - intros key deserializer fieldnames. apply update_field_custom.
  - intros key value deserializer Hcustom.
    unfold admin_deserialize_update. simpl.
    rewrite (update_field_custom _ _ _ _ _ _ Hcustom). simpl.
    by rewrite decide_True.
  - intros key. apply update_field_ignored.
  - intros key self' Hcustom Hupd name Hname.
    apply update_field_effect in Hupd; [| done].
    destruct Hupd as [-> | (Hin & Hhas & raw & _ & ->)]; [done |].
    destruct (decide (name = key)) as [-> | Hne]; [done |].
    by rewrite lookup_insert_ne in Hname.
  - intros self' Hplain Hupd.
    by apply (for_each_update_frame _ _ _ _ _ _ Hplain Hupd).
Qed.

End DeserializeProperties.

(** ** Date/time attributes *)

Section TemporalFields.

Variable dateutil_parse : string → option datetime.

(** The plain branch on a date/time attribute and a string that the
    parser reads. *)
Lemma update_field_datetime cls fieldnames data self key current s d :
  custom_deserializers cls !! key = None →
  key ∈ fieldnames →
  self !! key = Some (VDateTime current) →
  dict_get data key = Some (VStr s) →
  dateutil_parse s = Some d →
  update_field dateutil_parse cls fieldnames data self key
  = Ok (if datetime_eq current (replace_tzinfo_None d) then self
        else <[key := VStr s]> self).
Proof.
  intros Hcustom Hin Hget Hdata Hparse.
  rewrite (update_field_plain _ _ _ _ _ _ (VDateTime current)) by done.
  unfold dict_getitem. rewrite Hdata. simpl. rewrite Hparse. simpl.
  by destruct (datetime_eq current (replace_tzinfo_None d)).
Qed.

(** C6 (as the code has it).  When the current value of an allowed
    field is a date/time, the incoming string is parsed and made
    timezone-naive for the comparison; when the comparison finds the
    values different, the value stored on the entity is the incoming
    string itself, not the parsed date/time. *)
Theorem update_datetime_stores_raw (cls : Class) (fieldnames : gset string)
    (data : Dict) (self : Entity) (key : string) (current : datetime)
    (s : string) (d : datetime) :
  custom_deserializers cls !! key = None →
  key ∈ fieldnames →
  self !! key = Some (VDateTime current) →
  dict_get data key = Some (VStr s) →
  dateutil_parse s = Some d →
  datetime_eq current (replace_tzinfo_None d) = false →
  ∃ self',
    update_field dateutil_parse cls fieldnames data self key = Ok self'
    ∧ self' = <[key := VStr s]> self
    ∧ self' !! key = Some (VStr s)
    ∧ self' !! key ≠ Some (VDateTime (replace_tzinfo_None d)).
Proof.
  intros Hcustom Hin Hget Hdata Hparse Hne.
  exists (<[key := VStr s]> self).
  rewrite (update_field_datetime _ _ _ _ _ current s d) by done.
  rewrite Hne, lookup_insert_eq. done.
Qed.

(** C7 (as the code has it).  When the current value of a field is a
    naive date/time and the incoming string denotes the same instant
    and carries no UTC offset other than zero, the update of that
    field assigns nothing: the entity is unchanged. *)
Theorem update_same_instant_unchanged (cls : Class)
    (fieldnames : gset string) (data : Dict) (self : Entity) (key : string)
    (current : datetime) (s : string) (d : datetime) :
  custom_deserializers cls !! key = None →
  self !! key = Some (VDateTime current) →
  tzinfo current = None →
  datetime_ok current = true →
  dict_get data key = Some (VStr s) →
  dateutil_parse s = Some d →
  datetime_ok d = true →
  tzinfo d = None ∨ tzinfo d = Some 0%Z →
  utc_instant d = utc_instant current →
  update_field dateutil_parse cls fieldnames data self key = Ok self
  ∧ ∀ add,
      admin_deserialize_update dateutil_parse cls self [(key, VStr s)] add
      = Ok self.
Proof.
  intros Hcustom Hget Hnaive Hok Hdata Hparse Hokd Hzone Hinstant.
  assert (datetime_eq current (replace_tzinfo_None d) = true) as Heq.
  { unfold datetime_eq. rewrite Hnaive. simpl.
    apply bool_decide_eq_true. symmetry.
    assert (same_fields d current = true) as Hsame
      by (apply same_instant_same_fields; auto).
    apply bool_decide_eq_true in Hsame. rewrite <- Hsame.
    by destruct d. }
  assert (∀ names (values : Dict),
            dict_get values key = Some (VStr s) →
            update_field dateutil_parse cls names values self key = Ok self)
    as Hstep.
  { intros names values Hvalues.
    destruct (decide (key ∈ names)) as [Hin | Hout].
    - rewrite (update_field_datetime _ _ _ _ _ current s d) by done.
      by rewrite Heq.
    - apply update_field_ignored; [done | tauto]. }
  split; [by apply Hstep |].
  intros add. unfold admin_deserialize_update. simpl.
  rewrite Hstep; [done |]. simpl. by rewrite decide_True.
Qed.

End TemporalFields.

(** ** The deserialiser on sample data *)

Lemma admin_deserialize_add_mandatory_witness :
  admin_deserialize_add iso_parse User registration
  = admin_deserialize_update iso_parse User (new_instance User)
      registration true.
Proof.
  apply (proj2 (proj2
           (admin_deserialize_add_mandatory iso_parse User registration))).
  apply Forall_forall. apply (bool_decide_unpack _). vm_compute. exact I.
Defined.

Lemma admin_deserialize_update_fields_witness :
  admin_deserialize_update iso_parse User alice
    [("password", VStr "secret")] false
  = Ok (setattr alice "password_hash" (VStr "secret"))
  ∧ update_field iso_parse User (allowed_fieldnames User false)
      registration alice "id" = Ok alice.
Proof.
  pose proof (admin_deserialize_update_fields iso_parse User alice
                registration false) as (_ & Hcustom & Hignored & _).
  split.
  - apply (Hcustom "password" (VStr "secret")
             (λ self value, setattr self "password_hash" value)).
    reflexivity.
  - apply (Hignored "id"); [reflexivity |].
    intros [Hin _]. revert Hin. apply (bool_decide_unpack _).
    vm_compute. exact I.
Defined.

Lemma update_datetime_stores_raw_witness :
  ∃ self',
    update_field iso_parse User (allowed_fieldnames User false)
      [("date_created", VStr "2021-06-15T08:30:00")] alice "date_created"
    = Ok self'
    ∧ self' = <["date_created" := VStr "2021-06-15T08:30:00"]> alice
    ∧ self' !! "date_created" = Some (VStr "2021-06-15T08:30:00")
    ∧ self' !! "date_created"
      ≠ Some (VDateTime (replace_tzinfo_None half_past_eight)).
Proof.
  apply (update_datetime_stores_raw iso_parse User
           (allowed_fieldnames User false)
           [("date_created", VStr "2021-06-15T08:30:00")] alice
           "date_created" noon "2021-06-15T08:30:00" half_past_eight);
    reflexivity.
Defined.

(** C6 as stated fails: after the update the attribute holds the
    incoming string, while the parsed timezone-naive date/time is
    another value. *)
Lemma update_stores_string_not_datetime :
  alice !! "date_created" = Some (VDateTime noon)
  ∧ iso_parse "2021-06-15T08:30:00" = Some half_past_eight
  ∧ ∃ self',
      admin_deserialize_update iso_parse User alice
        [("date_created", VStr "2021-06-15T08:30:00")] false = Ok self'
      ∧ self' !! "date_created" = Some (VStr "2021-06-15T08:30:00")
      ∧ self' !! "date_created"
        ≠ Some (VDateTime (replace_tzinfo_None half_past_eight)).
Proof.
  split; [reflexivity |]. split; [reflexivity |].
  eexists. split; [reflexivity |]. split; [reflexivity | discriminate].
Qed.

Lemma update_same_instant_unchanged_witness :
  update_field iso_parse User (allowed_fieldnames User false)
    [("date_created", VStr "2020-01-01 12:00:00")] alice "date_created"
  = Ok alice
  ∧ ∀ add,
      admin_deserialize_update iso_parse User alice
        [("date_created", VStr "2020-01-01 12:00:00")] add
      = Ok alice.
Proof.
  apply (update_same_instant_unchanged iso_parse User
           (allowed_fieldnames User false)
           [("date_created", VStr "2020-01-01 12:00:00")] alice
           "date_created" noon "2020-01-01 12:00:00" noon);
    try reflexivity.
  by left.
Defined.

(** C7 as stated fails.  A string with a UTC offset of two hours
    denotes the same instant as the stored naive value read as UTC, and
    the update assigns; and when the stored value is itself aware, a
    string that denotes its very instant makes the update assign
    too. *)
Lemma update_same_instant_assigns :
  (alice !! "date_created" = Some (VDateTime noon)
   ∧ iso_parse "2020-01-01T14:00:00+02:00" = Some two_pm_plus_two
   ∧ utc_instant two_pm_plus_two = utc_instant noon
   ∧ admin_deserialize_update iso_parse User alice
       [("date_created", VStr "2020-01-01T14:00:00+02:00")] false
     = Ok (<["date_created" := VStr "2020-01-01T14:00:00+02:00"]> alice)
   ∧ <["date_created" := VStr "2020-01-01T14:00:00+02:00"]> alice ≠ alice)
  ∧ (iso_parse "2020-01-01 12:00:00+00:00" = Some noon_utc
     ∧ admin_deserialize_update iso_parse User
         (<["date_created" := VDateTime noon_utc]> alice)
         [("date_created", VStr "2020-01-01 12:00:00+00:00")] false
       = Ok (<["date_created" := VStr "2020-01-01 12:00:00+00:00"]> alice)).
Proof.
  split; [| split; reflexivity].
  repeat (split; [reflexivity |]).
  intros Heq.
  apply (f_equal (λ self : Entity, self !! "date_created")) in Heq.
  discriminate Heq.
Qed.

(** ** The query-filter builder *)

Lemma condition_lookup_None table name :
  condition_lookup table name = None ↔ name ∉ table.*1.
Proof.
  induction table as [|[k c] table IH]; simpl.
  - split; [by intros _ ?%elem_of_nil | done].
  - rewrite not_elem_of_cons. destruct (decide (k = name)) as [-> | Hne].
    + split; [done | by intros [? _]].
    + rewrite IH. split; [done | by intros [_ ?]].
Qed.

Lemma operators_split name :
  name ∈ OPERATORS ↔
  name ∈ ["like"; "ilike"] ∨ name ∈ ["in"] ∨ name ∈ CONDITION_MAPPING.*1.
Proof.
  unfold OPERATORS.
  change (["like"; "ilike"; "in"] ++ CONDITION_MAPPING.*1)%list
    with (["like"; "ilike"] ++ ["in"] ++ CONDITION_MAPPING.*1)%list.
  by rewrite !elem_of_app.
Qed.

(** What one key does to the list of predicates: it leaves it, appends
    one predicate, or raises. *)
Lemma filter_param_appends cls args filter_args key filter_args' :
  filter_param cls args filter_args key = Ok filter_args' →
  ∃ new, filter_args' = (filter_args ++ new)%list.
Proof.
  unfold filter_param.
  assert (∃ new, filter_args = (filter_args ++ new)%list) as Hsame
    by (exists []; by rewrite app_nil_r).
  repeat
    match goal with
    | |- Ok _ = Ok _ → _ => intros [= <-]; eauto
    | |- Raise _ = Ok _ → _ => done
    | |- (_ ≫= _) = Ok _ → _ => intros (? & _ & Hk)%bind_Ok; revert Hk
    | |- context [match ?x with _ => _ end] => destruct x
    end.
Qed.

Lemma filter_param_unknown cls args filter_args key :
  filter_param cls args filter_args key = Raise unknown_filter ↔
  cls_hasattr cls (base_field key) = true ∧ malformed key.
Proof.
  unfold filter_param, malformed, base_field.
  set (bits := split "." key).
  destruct (cls_hasattr cls (nth 0 bits "")); [| by split; [| intros []]].
  destruct (2 <? List.length bits)%nat eqn:Hlong.
  { apply Nat.ltb_lt in Hlong. split; [by auto | done]. }
  apply Nat.ltb_ge in Hlong.
  destruct (List.length bits =? 2)%nat eqn:Htwo.
  - apply Nat.eqb_eq in Htwo. rewrite operators_split.
    destruct (bool_decide (nth 1 bits "" ∈ ["like"; "ilike"])) eqn:Hlike.
    { apply bool_decide_eq_true in Hlike.
      split; [| intros [_ [? | []]]; [lia | tauto]].
      unfold getitem, cls_column.
      destruct (getlist args key); simpl; [done |].
      destruct (negb _); [| done].
      by destruct (class_attrs cls !! _) as [[]|]. }
    apply bool_decide_eq_false in Hlike.
    destruct (bool_decide (nth 1 bits "" ∈ ["in"])) eqn:Hin.
    { apply bool_decide_eq_true in Hin.
      split; [| intros [_ [? | []]]; [lia | tauto]].
      unfold cls_column.
      destruct (negb _); [| done].
      by destruct (class_attrs cls !! _) as [[]|]. }
    apply bool_decide_eq_false in Hin.
    destruct (condition_lookup CONDITION_MAPPING (nth 1 bits "")) eqn:Hcond.
    + assert (nth 1 bits "" ∈ CONDITION_MAPPING.*1) as Hop.
      { destruct (decide (nth 1 bits "" ∈ CONDITION_MAPPING.*1)); [done |].
        apply condition_lookup_None in n. congruence. }
      split; [| intros [_ [? | []]]; [lia | tauto]].
      unfold getitem.
      destruct (getlist args key); simpl; [done |].
      destruct (negb _); [| done].
      by destruct (class_attrs cls !! _) as [[]|].
    + apply condition_lookup_None in Hcond. split; [| done].
      intros _. split; [done |]. right. split; [done | tauto].
  - apply Nat.eqb_neq in Htwo.
    split; [| intros [_ [? | []]]; [lia | done]].
    destruct (List.length bits =? 1)%nat; [| done].
    unfold cls_column, getitem.
    destruct (class_attrs cls !! key) as [[]|]; simpl; try done;
      by destruct (getlist args key).
Qed.

Lemma split_nonempty sep s : split sep s ≠ [].
Proof.
  destruct s as [|c s]; simpl; [done |].
  destruct (decide (c = sep)); [done |]. by destruct (split sep s).
Qed.

(** A key without the separator is its own single segment. *)
Lemma split_single sep s :
  List.length (split sep s) = 1%nat → split sep s = [s].
Proof.
  induction s as [|c s IH]; simpl; [done |].
  pose proof (split_nonempty sep s) as Hne.
  destruct (decide (c = sep)).
  - destruct (split sep s); [done | simpl; lia].
  - destruct (split sep s) as [|bit bits]; [done |].
    destruct bits; simpl; [| lia].
    intros _. by injection (IH eq_refl) as ->.
Qed.

(** With a key that names a column or nothing, and a value under it,
    the only exception is the one for an unknown filter. *)
Lemma filter_param_total cls args filter_args key :
  names_column_or_nothing cls key →
  getlist args key ≠ [] →
  (∃ filter_args', filter_param cls args filter_args key = Ok filter_args')
  ∨ filter_param cls args filter_args key = Raise unknown_filter.
Proof.
  unfold names_column_or_nothing, base_field, filter_param, cls_hasattr.
  set (bits := split "." key). intros Hcolumn Hvalue.
  destruct (class_attrs cls !! nth 0 bits "") as [[typ|]|] eqn:Hattr;
    [| done | rewrite bool_decide_eq_false_2 by (by intros [? [=]]); eauto].
  rewrite bool_decide_eq_true_2 by eauto.
  destruct (2 <? List.length bits)%nat; [by right |].
  unfold getitem, cls_column. rewrite Hattr.
  destruct (getlist args key) as [|value values]; [done |]. simpl.
  destruct (List.length bits =? 2)%nat.
  { repeat match goal with
           | |- context [if ?b then _ else _] => destruct b; simpl; eauto
           | |- context [condition_lookup ?t ?n] =>
               destruct (condition_lookup t n); simpl; eauto
           end. }
  destruct (List.length bits =? 1)%nat eqn:Hone; [| eauto].
  assert (nth 0 bits "" = key) as Hkey.
  { apply Nat.eqb_eq in Hone. subst bits.
    by rewrite (split_single _ _ Hone). }
  rewrite <- Hkey, Hattr. simpl. eauto.
Qed.

Lemma for_each_filter_param_prefix cls args keys filter_args filter_args' :
  for_each (filter_param cls args) keys filter_args = Ok filter_args' →
  ∃ new, filter_args' = (filter_args ++ new)%list.
Proof.
  revert filter_args. induction keys as [|key keys IH]; intros l; simpl.
  - intros [= <-]. exists []. by rewrite app_nil_r.
  - intros (l1 & [new1 ->]%filter_param_appends & [new ->]%IH)%bind_Ok.
    exists (new1 ++ new)%list. by rewrite app_assoc.
Qed.

Lemma for_each_filter_param_unknown cls args keys filter_args :
  for_each (filter_param cls args) keys filter_args = Raise unknown_filter →
  ∃ key, key ∈ keys ∧ cls_hasattr cls (base_field key) = true
         ∧ malformed key.
Proof.
  intros (l & key & Hkey & Hraise%filter_param_unknown)%for_each_Raise.
  eauto.
Qed.

Lemma for_each_filter_param_total cls args keys filter_args :
  Forall (names_column_or_nothing cls) keys →
  Forall (λ key, getlist args key ≠ []) keys →
  (∃ filter_args',
     for_each (filter_param cls args) keys filter_args = Ok filter_args'
     ∧ Forall (λ key, ¬ (cls_hasattr cls (base_field key) = true
                         ∧ malformed key)) keys)
  ∨ (for_each (filter_param cls args) keys filter_args
     = Raise unknown_filter
     ∧ Exists (λ key, cls_hasattr cls (base_field key) = true
                      ∧ malformed key) keys).
Proof.
  intros Hcolumns. revert filter_args.
  induction Hcolumns as [|key keys Hkey _ IH]; intros l Hvalues; simpl.
  - left. eauto.
  - apply Forall_cons in Hvalues as [Hvalue Hvalues].
    pose proof (filter_param_unknown cls args l key) as Hunknown.
    destruct (filter_param_total cls args l key Hkey Hvalue)
      as [[l1 Hstep] | Hstep]; rewrite Hstep in *; simpl.
    + destruct (IH l1 Hvalues) as [(l' & -> & Hgood) | [-> Hbad]].
      * left. exists l'. split; [done |]. constructor; [| done].
        by intros ?%Hunknown.
      * right. split; [done |]. by apply Exists_cons_tl.
    + right. split; [done |]. apply Exists_cons_hd. by apply Hunknown.
Qed.

Lemma getlist_nonempty (args : MultiDict) key :
  Forall (λ item, item.2 ≠ []) args → key ∈ args.*1 → getlist args key ≠ [].
Proof.
  induction 1 as [|[k values] args Hitem _ IH]; simpl.
  - by intros ?%elem_of_nil.
  - intros [-> | Hin]%elem_of_cons.
    + by rewrite decide_True.
    + destruct (decide (k = key)); [done | by apply IH].
Qed.

Lemma args_to_filter_params_unfold cls args :
  cls_hasattr cls "active" = true →
  _args_to_filter_params cls args
  = for_each (filter_param cls args) args.*1 [active_is_true].
Proof. intros Hactive. unfold _args_to_filter_params. by rewrite Hactive. Qed.

Lemma args_to_filter_params_head cls args filter_args :
  _args_to_filter_params cls args = Ok filter_args →
  ∃ rest, filter_args = active_is_true :: rest.
Proof.
  unfold _args_to_filter_params.
  intros (init & Hinit & Hloop)%bind_Ok.
  destruct (cls_hasattr cls "active"); [| done]. injection Hinit as <-.
  apply for_each_filter_param_prefix in Hloop as [new ->]. by exists new.
Qed.

(** C5 (as the code has it).  One key makes the builder raise the
    unknown-filter exception exactly when its first segment names an
    attribute of the class and the key either has more than two
    segments or has two with a second segment that is no recognised
    operator.  A key whose first segment names nothing on the class is
    skipped, whatever its segments.  The builder raises that exception
    only for such a key among the arguments, and, when the keys name
    columns or nothing and each has a value, exactly when there is
    one. *)
Theorem unknown_filter_conditions (cls : Class) (args : MultiDict) :
  (∀ filter_args key,
     filter_param cls args filter_args key = Raise unknown_filter ↔
     cls_hasattr cls (base_field key) = true ∧ malformed key)
  ∧ (∀ filter_args key,
       cls_hasattr cls (base_field key) = false →
       filter_param cls args filter_args key = Ok filter_args)
  ∧ (_args_to_filter_params cls args = Raise unknown_filter →
     ∃ key, key ∈ args.*1 ∧ cls_hasattr cls (base_field key) = true
            ∧ malformed key)
  ∧ (cls_hasattr cls "active" = true →
     Forall (names_column_or_nothing cls) args.*1 →
     Forall (λ item, item.2 ≠ []) args →
     (_args_to_filter_params cls args = Raise unknown_filter ↔
      ∃ key, key ∈ args.*1 ∧ cls_hasattr cls (base_field key) = true
             ∧ malformed key)).
Proof.
  assert (_args_to_filter_params cls args = Raise unknown_filter →
          ∃ key, key ∈ args.*1 ∧ cls_hasattr cls (base_field key) = true
                 ∧ malformed key) as Honly.
  { unfold _args_to_filter_params.
    intros [Hinit | (init & _ & Hloop)]%bind_Raise.
    - by destruct (cls_hasattr cls "active").
    - by apply for_each_filter_param_unknown in Hloop. }
  split; [| split; [| split; [done |]]].
  - intros filter_args key. apply filter_param_unknown.
  - intros filter_args key Hnone. unfold filter_param.
    fold (base_field key). by rewrite Hnone.
  - intros Hactive Hcolumns Hvalues. split; [done |].
    intros (key & Hkey & Hbad). rewrite args_to_filter_params_unfold by done.
    destruct (for_each_filter_param_total cls args args.*1 [active_is_true])
      as [(l & _ & Hgood) | [Hraise _]]; [done | | | done].
    + apply Forall_forall. intros k Hk.
      by apply getlist_nonempty.
    + rewrite Forall_forall in Hgood. by destruct (Hgood key Hkey).
Qed.

Lemma unknown_filter_conditions_witness :
  _args_to_filter_params User
    [("age.greaterthan", ["18"]); ("name.bar", ["x"])]
  = Raise unknown_filter.
Proof.
  apply (proj2 (proj2 (proj2 (unknown_filter_conditions User
           [("age.greaterthan", ["18"]); ("name.bar", ["x"])]))));
    try reflexivity; try (apply (bool_decide_unpack _); vm_compute; exact I).
  exists "name.bar". split; [| split; [reflexivity |]].
  - apply (bool_decide_unpack _). vm_compute. exact I.
  - apply (bool_decide_unpack _). vm_compute. exact I.
Defined.

(** C5 as stated fails: keys whose first segment names nothing on the
    class raise no exception, with three segments, with one, and with
    an unrecognised second segment. *)
Lemma unknown_base_field_is_skipped :
  split "." "foo.bar.baz" = ["foo"; "bar"; "baz"]
  ∧ cls_hasattr User "foo" = false
  ∧ _args_to_filter_params User [("foo.bar.baz", ["x"])]
    = Ok [active_is_true]
  ∧ _args_to_filter_params User [("foo", ["x"])] = Ok [active_is_true]
  ∧ _args_to_filter_params User [("foo.bar", ["x"])] = Ok [active_is_true].
Proof. repeat split; reflexivity. Qed.

(** C10.  Every list that [_args_to_filter_params] returns starts with
    the predicate [active == True]; a query built by [args_to_query] or
    [_args_to_query] has it among its predicates, so each row the query
    returns satisfies it; and when the keys name columns or nothing and
    each has a value, arguments that do not raise the unknown-filter
    exception do produce such a list. *)
Theorem filter_params_contain_active (cls : Class) (args : MultiDict)
    (requester : option Requester) :
  (∀ filter_args,
     _args_to_filter_params cls args = Ok filter_args →
     ∃ rest, filter_args = active_is_true :: rest)
  ∧ (∀ q,
       args_to_query cls args requester = Ok q →
       _args_to_query cls args requester = Ok q
       ∧ active_is_true ∈ query_filters q
       ∧ ∀ holds table row,
           In row (query_all holds q table) →
           holds active_is_true row = true)
  ∧ (cls_hasattr cls "active" = true →
     Forall (names_column_or_nothing cls) args.*1 →
     Forall (λ item, item.2 ≠ []) args →
     _args_to_filter_params cls args ≠ Raise unknown_filter →
     ∃ rest, _args_to_filter_params cls args = Ok (active_is_true :: rest)).
Proof.
  split; [| split].
  - apply args_to_filter_params_head.
  - intros q Hq. split; [done |].
    unfold args_to_query, _args_to_query in Hq.
    apply bind_Ok in Hq as (l & [rest ->]%args_to_filter_params_head & Hq).
    injection Hq as <-. simpl. split; [by left |].
    intros holds table row [_ Hrow]%filter_In. simpl in Hrow.
    by apply andb_true_iff in Hrow as [? _].
  - intros Hactive Hcolumns Hvalues Hknown.
    rewrite args_to_filter_params_unfold in * by done.
    destruct (for_each_filter_param_total cls args args.*1 [active_is_true])
      as [(l & Hl & _) | [Hraise _]]; [done | | | done].
    + apply Forall_forall. intros k Hk. by apply getlist_nonempty.
    + rewrite Hl.
      apply for_each_filter_param_prefix in Hl as [new ->]. by exists new.
Qed.

Lemma filter_params_contain_active_witness :
  ∃ rest,
    _args_to_filter_params User
      [("age.greaterthan", ["18"]); ("foo.bar.baz", ["x"]);
       ("active", ["false"])]
    = Ok (active_is_true :: rest).
Proof.
  apply (proj2 (proj2 (filter_params_contain_active User
           [("age.greaterthan", ["18"]); ("foo.bar.baz", ["x"]);
            ("active", ["false"])] None)));
    try reflexivity; try (apply (bool_decide_unpack _); vm_compute; exact I).
  discriminate.
Defined.

(** * Further properties of the code *)

(** ** Permissions *)

(** X1.  Add rights, admin rights and delete rights are one and the
    same predicate, true exactly for an administrator, whatever the
    data and the class's permission flags; an administrator has
    standard rights; a null requester has none. *)
Theorem permission_tiers (cls : Class) (data : Dict)
    (requester : option Requester) :
  has_add_rights cls data requester = has_admin_rights requester
  ∧ has_delete_rights cls requester = has_admin_rights requester
  ∧ (has_admin_rights requester = true ↔
     ∃ r, requester = Some r ∧ is_administrator r = true)
  ∧ (has_standard_rights requester = true ↔ requester ≠ None)
  ∧ (has_admin_rights requester = true →
     has_standard_rights requester = true).
Proof.
  split; [done |]. split; [apply has_delete_rights_admin |].
  destruct requester as [[admin]|]; simpl.
  - split; [| by split].
    split; [eauto | by intros (r & [= <-] & ?)].
  - split; [| by split].
    split; [done | by intros (r & [=] & _)].
Qed.

(** ** serialize *)

Lemma serialize_items_values cls self requester keys items :
  serialize_items cls self requester keys = Ok items →
  ∀ key v, (key, v) ∈ items → serialized cls self requester key = Some v.
Proof.
  revert items. induction keys as [|k keys IH]; intros items; simpl.
  - intros [= <-] key v ?%elem_of_nil. done.
  - intros (w & Hw & (rest & Hrest & [= <-])%bind_Ok)%bind_Ok key v.
    intros [[= -> ->] | Hin]%elem_of_cons; [| by eapply IH].
    unfold serialize_value, getattr in Hw. unfold serialized.
    destruct (custom_serializers cls !! k); [by injection Hw as -> |].
    by destruct (self !! k); [injection Hw as -> |].
Qed.

Lemma serialize_lookup cls self requester exclude (m : gmap string Value)
    key :
  serialize cls self requester exclude = Ok (Some m) →
  key ∈ dom m →
  m !! key = serialized cls self requester key.
Proof.
  intros Hser [v Hv]%elem_of_dom. rewrite Hv.
  destruct requester as [r|]; [| done].
  rewrite serialize_Some in Hser.
  apply bind_Ok in Hser as (items & Hitems & [= <-]).
  apply elem_of_list_to_map in Hv.
  - symmetry. by apply (serialize_items_values _ _ _ _ _ Hitems).
  - rewrite (serialize_items_fst _ _ _ _ _ Hitems). apply NoDup_elements.
Qed.

(** X2.  A dictionary that [serialize] returns maps each selected key
    to the result of the custom serializer registered for it, applied
    to the entity and the requester, and to the value of the attribute
    only when no serializer is registered; it has no other entry. *)
Theorem serialize_values (cls : Class) (self : Entity) (r : Requester)
    (exclude : list string) (m : gmap string Value) (key : string) :
  serialize cls self (Some r) exclude = Ok (Some m) →
  m !! key
  = if decide (key ∈ serialize_keys self
                       (if is_administrator r then ADMIN_READABLE_FIELDS cls
                        else STANDARD_READABLE_FIELDS cls) exclude)
    then match custom_serializers cls !! key with
         | Some f => Some (f self (Some r))
         | None => self !! key
         end
    else None.
Proof.
  intros Hser. rewrite <- (serialize_dom _ _ _ _ _ Hser).
  destruct (decide (key ∈ dom m)) as [Hin | Hout].
  - by rewrite (serialize_lookup _ _ _ _ _ _ Hser Hin).
  - by apply not_elem_of_dom.
Qed.

Lemma serialize_values_witness :
  ({[ "id" := VInt 7; "name" := VStr "Alice"; "bio" := VStr "" ]}
     : gmap string Value) !! "email"
  = if decide ("email" ∈ serialize_keys alice
                           (STANDARD_READABLE_FIELDS User) ["id"])
    then match custom_serializers User !! "email" with
         | Some f => Some (f alice (Some member))
         | None => alice !! "email"
         end
    else None.
Proof.
  apply (serialize_values User alice member ["id"]).
  vm_compute. reflexivity.
Defined.

Lemma serialize_items_Raise cls self requester keys e :
  serialize_items cls self requester keys = Raise e →
  ∃ key, key ∈ keys ∧ ¬ readable cls self key ∧ e = AttributeError key.
Proof.
  induction keys as [|k keys IH]; simpl; [done |].
  intros [Hk | (v & _ & [Hrest | (? & _ & [=])]%bind_Raise)]%bind_Raise.
  - exists k. split; [by left |].
    unfold serialize_value, getattr in Hk. unfold readable.
    destruct (custom_serializers cls !! k); [done |].
    destruct (self !! k); [done |]. injection Hk as <-.
    split; [by intros [[? [=]] | [? [=]]] | done].
  - destruct (IH Hrest) as (key & ? & ? & ?). exists key.
    split; [by right | done].
Qed.

(** X3.  [serialize] raises only for an authenticated requester and
    only an AttributeError that names a selected key with neither a
    custom serializer nor an attribute; and it does raise whenever
    there is such a key. *)
Theorem serialize_raises (cls : Class) (self : Entity) (r : Requester)
    (exclude : list string) :
  let keys : gset string :=
    (list_to_set (if is_administrator r then ADMIN_READABLE_FIELDS cls
                  else STANDARD_READABLE_FIELDS cls)
     ∖ list_to_set exclude)
    ∪ (if hasattr self "id" then {["id"]} else ∅) in
  (∀ e, serialize cls self None exclude ≠ Raise e)
  ∧ (∀ e, serialize cls self (Some r) exclude = Raise e →
          ∃ key, key ∈ keys ∧ ¬ readable cls self key
                 ∧ e = AttributeError key)
  ∧ ((∃ key, key ∈ keys ∧ ¬ readable cls self key) →
     ∃ key, key ∈ keys ∧ ¬ readable cls self key
            ∧ serialize cls self (Some r) exclude
              = Raise (AttributeError key)).
Proof.
  intros keys. split; [done |].
  assert (∀ e, serialize cls self (Some r) exclude = Raise e →
               ∃ key, key ∈ keys ∧ ¬ readable cls self key
                      ∧ e = AttributeError key) as Honly.
  { intros e. rewrite serialize_Some.
    intros [Hitems | (? & _ & [=])]%bind_Raise.
    apply serialize_items_Raise in Hitems as (key & Hkey & ? & ?).
    exists key. split; [| done]. by apply elem_of_elements in Hkey. }
  split; [done |]. intros (key & Hkey & Hunreadable).
  destruct (serialize cls self (Some r) exclude) as [[m|]|e] eqn:Hser.
  - destruct Hunreadable.
    rewrite serialize_Some in Hser.
    apply bind_Ok in Hser as (items & Hitems & _).
    assert (Forall (readable cls self) (elements keys)) as Hall.
    { apply (serialize_items_Ok cls self (Some r)). eauto. }
    rewrite Forall_forall in Hall. apply Hall. by apply elem_of_elements.
  - rewrite serialize_Some in Hser.
    by apply bind_Ok in Hser as (items & _ & [=]).
  - destruct (Honly e eq_refl) as (key' & ? & ? & ->). eauto.
Qed.

Lemma serialize_raises_witness :
  ∃ key,
    key ∈ ((list_to_set (ADMIN_READABLE_FIELDS User) ∖ list_to_set [])
           ∪ (if hasattr stub "id" then {["id"]} else ∅) : gset string)
    ∧ ¬ readable User stub key
    ∧ serialize User stub (Some administrator) []
      = Raise (AttributeError key).
Proof.
  apply (proj2 (proj2 (serialize_raises User stub administrator []))).
  exists "email". split.
  - apply (bool_decide_unpack _). vm_compute. exact I.
  - apply (bool_decide_unpack _). vm_compute. exact I.
Defined.

(** ** delete *)

(** X4.  [delete] raises exactly when the entity has no active
    attribute, and then an AttributeError for it; otherwise it returns,
    no attribute other than active differs afterwards, and what it adds
    to the session and hands to the hook is the entity as it is after
    the call. *)
Theorem delete_frame (self : Entity) (requester : option Requester) :
  (self !! "active" = None →
   delete self requester = Raise (AttributeError "active"))
  ∧ (is_Some (self !! "active") →
     ∃ self' calls,
       delete self requester = Ok (self', calls)
       ∧ (∀ name, name ≠ "active" → self' !! name = self !! name)
       ∧ (∀ obj, SessionAdd obj ∈ calls → obj = self')
       ∧ (∀ obj r, OnDelete obj r ∈ calls → obj = self' ∧ r = requester)).
Proof.
  split.
  - intros Hnone. unfold delete, getattr. by rewrite Hnone.
  - intros [active Hget]. destruct (truthy active) eqn:Hactive.
    + rewrite (delete_active _ _ _ Hget Hactive). eexists _, _.
      split; [done |]. split; [| split].
      * intros name Hname. unfold setattr. by rewrite lookup_insert_ne.
      * intros obj [[= ->] | [[=] | []%elem_of_nil]%elem_of_cons]%elem_of_cons.
        done.
      * intros obj r
          [[=] | [[= -> ->] | []%elem_of_nil]%elem_of_cons]%elem_of_cons.
        done.
    + rewrite (delete_inactive _ _ _ Hget Hactive). eexists _, _.
      split; [done |]. split; [done |].
      split; [by intros ? ?%elem_of_nil | by intros ? ? ?%elem_of_nil].
Qed.

Lemma delete_frame_witness :
  ∃ self' calls,
    delete alice (Some member) = Ok (self', calls)
    ∧ (∀ name, name ≠ "active" → self' !! name = alice !! name)
    ∧ (∀ obj, SessionAdd obj ∈ calls → obj = self')
    ∧ (∀ obj r, OnDelete obj r ∈ calls → obj = self' ∧ r = Some member).
Proof.
  apply (proj2 (delete_frame alice (Some member))). by exists (VBool true).
Defined.

(** ** admin_deserialize_add and admin_deserialize_update, continued *)

Lemma check_mandatory_first_missing data present fieldname rest :
  Forall (λ name, name ∈ dict_keys data) present →
  fieldname ∉ dict_keys data →
  check_mandatory (present ++ fieldname :: rest) data
  = Raise (ValidationException ("Missing necessary field: " ++ fieldname)).
Proof.
  intros Hpresent Hmissing.
  induction Hpresent as [|name present Hname _ IH]; simpl.
  - apply dict_contains_not_keys in Hmissing. by rewrite Hmissing.
  - apply dict_contains_keys in Hname. by rewrite Hname.
Qed.

(** X5.  [admin_deserialize_add] reports the first name of
    MANDATORY_FIELDS, in the order of the list, that is not a key of
    the data. *)
Theorem admin_deserialize_add_first_missing
    (dateutil_parse : string → option datetime) (cls : Class) (data : Dict)
    (present : list string) (fieldname : string) (rest : list string) :
  MANDATORY_FIELDS cls = (present ++ fieldname :: rest)%list →
  Forall (λ name, name ∈ dict_keys data) present →
  fieldname ∉ dict_keys data →
  admin_deserialize_add dateutil_parse cls data
  = Raise (ValidationException ("Missing necessary field: " ++ fieldname)).
Proof.
  intros Hfields Hpresent Hmissing. unfold admin_deserialize_add.
  by rewrite Hfields, check_mandatory_first_missing.
Qed.

Lemma admin_deserialize_add_first_missing_witness :
  admin_deserialize_add iso_parse User [("name", VStr "Bob"); ("bio", VNone)]
  = Raise (ValidationException "Missing necessary field: email").
Proof.
  apply (admin_deserialize_add_first_missing iso_parse User
           [("name", VStr "Bob"); ("bio", VNone)] ["name"] "email" []).
  - reflexivity.
  - apply (bool_decide_unpack _). vm_compute. exact I.
  - apply (bool_decide_unpack _). vm_compute. exact I.
Defined.

Section UpdateErrors.

Variable dateutil_parse : string → option datetime.

(** Where one key of the update raises. *)
Lemma update_field_Raise cls fieldnames data self key e :
  update_field dateutil_parse cls fieldnames data self key = Raise e →
  key ∈ dict_keys data →
  custom_deserializers cls !! key = None ∧ key ∈ fieldnames
  ∧ ∃ current raw,
      self !! key = Some (VDateTime current)
      ∧ dict_get data key = Some raw
      ∧ (((∀ s, raw ≠ VStr s) ∧ e = TypeError)
         ∨ (∃ s, raw = VStr s ∧ dateutil_parse s = None ∧ e = ParserError)).
Proof.
  intros Hraise [raw Hraw]%dict_get_Some_keys.
  destruct (custom_deserializers cls !! key) as [f|] eqn:Hcustom.
  { by rewrite (update_field_custom _ _ _ _ _ _ _ Hcustom) in Hraise. }
  destruct (decide (key ∈ fieldnames ∧ is_Some (self !! key)))
    as [[Hin [current Hget]] | Hnot];
    [| by rewrite update_field_ignored in Hraise].
  rewrite (update_field_plain _ _ _ _ _ _ current) in Hraise by done.
  unfold dict_getitem in Hraise. rewrite Hraw in Hraise. simpl in Hraise.
  split; [done |]. split; [done |].
  destruct current as [| | | |d];
    try (simpl in Hraise; by destruct (negb _)).
  exists d, raw. split; [done |]. split; [done |].
  destruct raw as [| | |s|]; simpl in Hraise;
    try (injection Hraise as <-; left; by split).
  destruct (dateutil_parse s) eqn:Hparse; simpl in Hraise.
  - by destruct (negb _).
  - injection Hraise as <-. right. eauto.
Qed.

(** X6.  [admin_deserialize_update] raises neither KeyError nor
    AttributeError: it fails only at an allowed key without custom
    deserializer whose incoming value the date parser does not take,
    with TypeError when the value is no string and with the parser's
    error when it is a string the parser rejects. *)
Theorem admin_deserialize_update_errors (cls : Class) (self : Entity)
    (data : Dict) (add : bool) (e : exn) :
  admin_deserialize_update dateutil_parse cls self data add = Raise e →
  ∃ key raw,
    dict_get data key = Some raw
    ∧ custom_deserializers cls !! key = None
    ∧ key ∈ allowed_fieldnames cls add
    ∧ (((∀ s, raw ≠ VStr s) ∧ e = TypeError)
       ∨ (∃ s, raw = VStr s ∧ dateutil_parse s = None ∧ e = ParserError)).
Proof.
  intros (s' & key & Hkey & Hraise)%for_each_Raise.
  apply update_field_Raise in Hraise
    as (? & ? & current & raw & _ & ? & ?); [| done].
  eauto 10.
Qed.

End UpdateErrors.

Lemma admin_deserialize_update_errors_witness :
  ∃ key raw,
    dict_get [("name", VStr "Al"); ("date_created", VStr "yesterday")] key
    = Some raw
    ∧ custom_deserializers User !! key = None
    ∧ key ∈ allowed_fieldnames User false
    ∧ (((∀ s, raw ≠ VStr s) ∧ ParserError = TypeError)
       ∨ (∃ s, raw = VStr s ∧ iso_parse s = None
               ∧ ParserError = ParserError)).
Proof.
  apply (admin_deserialize_update_errors iso_parse User alice
           [("name", VStr "Al"); ("date_created", VStr "yesterday")] false).
  vm_compute. reflexivity.
Defined.

Lemma datetime_eq_refl d : datetime_eq d d = true.
Proof.
  unfold datetime_eq, same_fields.
  destruct (tzinfo d); [rewrite Z.eqb_refl |]; by apply bool_decide_eq_true.
Qed.

Lemma py_eq_refl v : py_eq v v = true.
Proof.
  destruct v; simpl; try done.
  - by apply bool_decide_eq_true.
  - apply Z.eqb_refl.
  - by apply bool_decide_eq_true.
  - apply datetime_eq_refl.
Qed.

Lemma dict_get_elem (data : Dict) key v :
  dict_get data key = Some v → (key, v) ∈ data.
Proof.
  induction data as [|[k w] data IH]; simpl; [done |].
  destruct (decide (k = key)) as [-> | Hne].
  - intros [= ->]. by left.
  - intros ?%IH. by right.
Qed.

Lemma dict_get_NoDup (data : Dict) key v :
  NoDup (dict_keys data) → (key, v) ∈ data → dict_get data key = Some v.
Proof.
  unfold dict_keys. induction data as [|[k w] data IH]; simpl.
  - by intros _ ?%elem_of_nil.
  - intros [Hk Hnodup]%NoDup_cons [[= -> ->] | Hin]%elem_of_cons.
    + by rewrite decide_True.
    + rewrite decide_False; [by apply IH |].
      intros ->. apply Hk. apply list_elem_of_fmap. by exists (key, v).
Qed.

Lemma dict_get_map_to_list (m : gmap string Value) key :
  dict_get (map_to_list m) key = m !! key.
Proof.
  destruct (m !! key) as [v|] eqn:Hm.
  - apply dict_get_NoDup; [apply NoDup_fst_map_to_list |].
    by apply elem_of_map_to_list.
  - destruct (dict_get (map_to_list m) key) as [v|] eqn:Hget; [| done].
    apply dict_get_elem, elem_of_map_to_list in Hget. congruence.
Qed.

Section UpdateAgain.

Variable dateutil_parse : string → option datetime.

(** Offering an attribute its own value, no date/time, changes
    nothing. *)
Lemma update_field_same_value cls fieldnames data self key v :
  custom_deserializers cls !! key = None →
  dict_get data key = Some v →
  self !! key = Some v →
  is_datetime v = false →
  update_field dateutil_parse cls fieldnames data self key = Ok self.
Proof.
  intros Hcustom Hdata Hget Hplain.
  destruct (decide (key ∈ fieldnames)) as [Hin | Hout];
    [| apply update_field_ignored; [done | tauto]].
  rewrite (update_field_plain _ _ _ _ _ _ v) by done.
  unfold dict_getitem. rewrite Hdata. simpl.
  destruct v; try done; simpl; by rewrite ?bool_decide_eq_true_2, ?Z.eqb_refl.
Qed.

(** Whether a key is at rest depends on its attribute alone. *)
Lemma update_field_rest_transfer cls fieldnames data self other key :
  custom_deserializers cls !! key = None →
  self !! key = other !! key →
  update_field dateutil_parse cls fieldnames data self key = Ok self →
  update_field dateutil_parse cls fieldnames data other key = Ok other.
Proof.
  intros Hcustom Hsame Hrest.
  destruct (decide (key ∈ fieldnames ∧ is_Some (self !! key)))
    as [[Hin [current Hget]] | Hnot].
  - rewrite (update_field_plain _ _ _ _ _ _ current) in Hrest by done.
    rewrite (update_field_plain _ _ _ _ _ _ current) by congruence.
    destruct (dict_getitem data key) as [raw|]; simpl in *; [| done].
    match goal with
    | H : (?new ≫= _) = _ |- _ => destruct new as [new_value|]
    end; simpl in *; [| done].
    destruct (negb (py_eq current new_value)); [| done].
    injection Hrest as Hrest. f_equal. unfold setattr in *.
    apply insert_id. rewrite <- Hsame, <- Hrest. apply lookup_insert_eq.
  - apply update_field_ignored; [done |]. by rewrite <- Hsame.
Qed.

(** A step leaves its own key at rest, and the keys that were. *)
Lemma update_field_rest_kept cls fieldnames data self key self' other :
  custom_deserializers cls !! key = None →
  custom_deserializers cls !! other = None →
  (∀ raw, dict_get data key = Some raw → is_datetime raw = false) →
  update_field dateutil_parse cls fieldnames data self key = Ok self' →
  other = key
  ∨ update_field dateutil_parse cls fieldnames data self other = Ok self →
  update_field dateutil_parse cls fieldnames data self' other = Ok self'.
Proof.
  intros Hcustom Hcustom' Hplain Hstep Hother.
  pose proof Hstep as Heffect. apply update_field_effect in Heffect; [| done].
  destruct Heffect as [-> | (Hin & Hhas & raw & Hraw & ->)].
  { by destruct Hother as [-> | ?]. }
  destruct (decide (other = key)) as [-> | Hne].
  - apply (update_field_same_value _ _ _ _ _ raw); [done.. | | by apply Hplain].
    apply lookup_insert_eq.
  - destruct Hother as [? | Hrest]; [done |].
    apply (update_field_rest_transfer _ _ _ self); [done | | done].
    by rewrite lookup_insert_ne.
Qed.

Lemma for_each_update_rest cls fieldnames data keys self self' other :
  Forall (λ key, custom_deserializers cls !! key = None) keys →
  custom_deserializers cls !! other = None →
  Forall (λ key, ∀ raw, dict_get data key = Some raw →
                        is_datetime raw = false) keys →
  for_each (update_field dateutil_parse cls fieldnames data) keys self
  = Ok self' →
  other ∈ keys
  ∨ update_field dateutil_parse cls fieldnames data self other = Ok self →
  update_field dateutil_parse cls fieldnames data self' other = Ok self'.
Proof.
  intros Hcustom Hother. revert self.
  induction Hcustom as [|key keys Hkey _ IH]; intros self Hplain; simpl.
  - intros [= <-] [?%elem_of_nil | ?]; done.
  - apply Forall_cons in Hplain as [Hraw Hplain].
    intros (self1 & Hstep & Hrest)%bind_Ok Hin.
    apply (IH self1 Hplain Hrest).
    destruct Hin as [[-> | Hin]%elem_of_cons | Hin]; [| by left |]; right.
    + apply (update_field_rest_kept _ _ _ self key); auto.
    + apply (update_field_rest_kept _ _ _ self key); auto.
Qed.

(** X7.  An update without custom deserializers, on data that holds no
    date/time objects, is idempotent: applied again to the entity it
    produced, it returns that entity unchanged. *)
Theorem admin_deserialize_update_idempotent (cls : Class) (self : Entity)
    (data : Dict) (add : bool) (self' : Entity) :
  Forall (λ key, custom_deserializers cls !! key = None) (dict_keys data) →
  Forall (λ item, is_datetime item.2 = false) data →
  admin_deserialize_update dateutil_parse cls self data add = Ok self' →
  admin_deserialize_update dateutil_parse cls self' data add = Ok self'.
Proof.
  intros Hcustom Hplain Hupdate. unfold admin_deserialize_update in *.
  assert (Forall (λ key, ∀ raw, dict_get data key = Some raw →
                                is_datetime raw = false) (dict_keys data))
    as Hvalues.
  { apply Forall_forall. intros key _ raw Hraw%dict_get_elem.
    rewrite Forall_forall in Hplain. by apply (Hplain (key, raw)). }
  apply for_each_id, Forall_forall. intros key Hkey.
  apply (for_each_update_rest cls _ data (dict_keys data) self self' key
           Hcustom); [| done.. | by left].
  rewrite Forall_forall in Hcustom. by apply Hcustom.
Qed.

(** X8.  Feeding what [serialize] returned back to
    [admin_deserialize_update] changes nothing, when the keys have
    neither custom serializers nor custom deserializers and no value is
    a date/time object. *)
Theorem serialize_then_update_unchanged (cls : Class) (self : Entity)
    (requester : option Requester) (exclude : list string)
    (m : gmap string Value) (add : bool) :
  serialize cls self requester exclude = Ok (Some m) →
  (∀ key, key ∈ dom m →
          custom_serializers cls !! key = None
          ∧ custom_deserializers cls !! key = None) →
  (∀ key v, m !! key = Some v → is_datetime v = false) →
  admin_deserialize_update dateutil_parse cls self (map_to_list m) add
  = Ok self.
Proof.
  intros Hser Hcustom Hplain. unfold admin_deserialize_update.
  apply for_each_id, Forall_forall. intros key Hkey.
  apply dict_get_Some_keys in Hkey as [v Hv].
  pose proof Hv as Hm. rewrite dict_get_map_to_list in Hm.
  assert (key ∈ dom m) as Hdom by (apply elem_of_dom; eauto).
  destruct (Hcustom key Hdom) as [Hser_none Hdeser_none].
  apply (update_field_same_value _ _ _ _ _ v); [done.. | | by eapply Hplain].
  pose proof (serialize_lookup _ _ _ _ _ _ Hser Hdom) as Hvalue.
  unfold serialized in Hvalue. rewrite Hser_none in Hvalue. congruence.
Qed.

End UpdateAgain.

(** ** admin_deserialize *)

Section AdminDeserializeProperties.

Variable dateutil_parse : string → option datetime.
Variable first_by_id : Value → option Entity.

Lemma admin_deserialize_add_validation cls data :
  (∃ msg, admin_deserialize_add dateutil_parse cls data
          = Raise (ValidationException msg))
  ↔ ∃ fieldname,
      fieldname ∈ MANDATORY_FIELDS cls ∧ fieldname ∉ dict_keys data.
Proof.
  unfold admin_deserialize_add. split.
  - intros [msg [Hcheck | ([] & _ & Hupd)]%bind_Raise].
    + apply check_mandatory_Raise in Hcheck as (f & ? & ? & _).
      by exists f.
    + by apply admin_deserialize_update_not_validation in Hupd.
  - intros (f & Hf & Hmissing).
    destruct (check_mandatory_total (MANDATORY_FIELDS cls) data)
      as [Hok | [e He]].
    + apply (check_mandatory_Ok dateutil_parse) in Hok.
      rewrite Forall_forall in Hok. by destruct Hmissing; apply Hok.
    + rewrite He.
      apply check_mandatory_Raise in He as (g & _ & _ & ->). simpl. eauto.
Qed.

(** The three ways through [admin_deserialize]. *)
Lemma admin_deserialize_add_path cls data :
  dict_get data "id" = None ∨ dict_get data "id" = Some VNone →
  admin_deserialize dateutil_parse first_by_id cls data
  = (item ← admin_deserialize_add dateutil_parse cls data; Ok (Some item)).
Proof. unfold admin_deserialize. by intros [-> | ->]. Qed.

Lemma admin_deserialize_update_path cls data id item :
  dict_get data "id" = Some id → id ≠ VNone →
  first_by_id id = Some item →
  admin_deserialize dateutil_parse first_by_id cls data
  = (item ← admin_deserialize_update dateutil_parse cls item data false;
     Ok (Some item)).
Proof.
  intros Hid Hnone Hfound. unfold admin_deserialize, dict_getitem.
  rewrite Hid. simpl. rewrite bool_decide_eq_false_2 by done. simpl.
  by rewrite Hfound.
Qed.

Lemma admin_deserialize_not_found cls data id :
  dict_get data "id" = Some id → id ≠ VNone →
  first_by_id id = None →
  admin_deserialize dateutil_parse first_by_id cls data = Ok None.
Proof.
  intros Hid Hnone Hfound. unfold admin_deserialize, dict_getitem.
  rewrite Hid. simpl. rewrite bool_decide_eq_false_2 by done. simpl.
  by rewrite Hfound.
Qed.

Lemma id_cases (data : Dict) :
  (dict_get data "id" = None ∨ dict_get data "id" = Some VNone)
  ∨ ∃ id, dict_get data "id" = Some id ∧ id ≠ VNone.
Proof.
  destruct (dict_get data "id") as [id|]; [| by left; left].
  destruct (decide (id = VNone)) as [-> | ?]; [by left; right | right; eauto].
Qed.

(** X9.  [admin_deserialize] returns Python's None exactly when the data
    carry an id other than None that the session does not find; in that
    case nothing of the data is looked at, so no exception is raised
    either. *)
Theorem admin_deserialize_None (cls : Class) (data : Dict) :
  admin_deserialize dateutil_parse first_by_id cls data = Ok None
  ↔ ∃ id, dict_get data "id" = Some id ∧ id ≠ VNone
          ∧ first_by_id id = None.
Proof.
  split.
  - destruct (id_cases data) as [Hadd | (id & Hid & Hnone)].
    + rewrite admin_deserialize_add_path by done.
      by intros (item & _ & [=])%bind_Ok.
    + destruct (first_by_id id) as [item|] eqn:Hfound; [| eauto].
      rewrite (admin_deserialize_update_path _ _ id item) by done.
      by intros (item' & _ & [=])%bind_Ok.
  - intros (id & ? & ? & ?). by apply (admin_deserialize_not_found _ _ id).
Qed.

(** X10.  [admin_deserialize] raises a ValidationException exactly when
    the data carry no id, or the id None, and lack a mandatory field:
    with an id, mandatory fields are not asked for. *)
Theorem admin_deserialize_validation (cls : Class) (data : Dict) :
  (∃ msg, admin_deserialize dateutil_parse first_by_id cls data
          = Raise (ValidationException msg))
  ↔ (dict_get data "id" = None ∨ dict_get data "id" = Some VNone)
    ∧ ∃ fieldname,
        fieldname ∈ MANDATORY_FIELDS cls ∧ fieldname ∉ dict_keys data.
Proof.
  rewrite <- admin_deserialize_add_validation.
  destruct (id_cases data) as [Hadd | (id & Hid & Hnone)].
  - rewrite admin_deserialize_add_path by done. split.
    + intros [msg [Hraise | (item & _ & [=])]%bind_Raise]. eauto.
    + intros [_ [msg ->]]. eauto.
  - split; [| intros [[? | ?] _]; congruence].
    intros [msg Hraise]. exfalso.
    destruct (first_by_id id) as [item|] eqn:Hfound.
    + rewrite (admin_deserialize_update_path _ _ id item) in Hraise by done.
      apply bind_Raise in Hraise as [Hraise | (item' & _ & [=])].
      by apply admin_deserialize_update_not_validation in Hraise.
    + by rewrite (admin_deserialize_not_found _ _ id) in Hraise.
Qed.

(** X11.  Through [admin_deserialize] a stored entity changes only in
    attributes that are named in WRITEABLE_FIELDS, are keys of the data
    and are attributes it already has, when no key of the data has a
    custom deserializer: mandatory and writable-once fields, and the id
    itself, stay as stored. *)
Theorem admin_deserialize_existing (cls : Class) (data : Dict) (id : Value)
    (item item' : Entity) :
  dict_get data "id" = Some id → id ≠ VNone →
  first_by_id id = Some item →
  Forall (λ key, custom_deserializers cls !! key = None) (dict_keys data) →
  admin_deserialize dateutil_parse first_by_id cls data = Ok (Some item') →
  ∀ name, item' !! name ≠ item !! name →
          name ∈ WRITEABLE_FIELDS cls ∧ name ∈ dict_keys data
          ∧ is_Some (item !! name).
Proof.
  intros Hid Hnone Hfound Hplain Hresult name Hname.
  rewrite (admin_deserialize_update_path _ _ id item) in Hresult by done.
  apply bind_Ok in Hresult as (updated & Hupdate & [= <-]).
  destruct (for_each_update_frame _ _ _ _ _ _ _ Hplain Hupdate name Hname)
    as (? & Hin & ?).
  split; [| done]. simpl in Hin. by apply elem_of_list_to_set in Hin.
Qed.

End AdminDeserializeProperties.

Lemma admin_deserialize_existing_witness :
  "name" ∈ WRITEABLE_FIELDS User
  ∧ "name" ∈ dict_keys [("id", VInt 7); ("name", VStr "Alicia");
                        ("email", VStr "other@example.org")]
  ∧ is_Some (alice !! "name").
Proof.
  apply (admin_deserialize_existing iso_parse sample_store User
           [("id", VInt 7); ("name", VStr "Alicia");
            ("email", VStr "other@example.org")] (VInt 7) alice
           (<["name" := VStr "Alicia"]> alice)).
  - reflexivity.
  - discriminate.
  - reflexivity.
  - apply (bool_decide_unpack _). vm_compute. exact I.
  - vm_compute. reflexivity.
  - vm_compute. discriminate.
Defined.

(** ** The query-filter builder, continued *)

Lemma split_dotless s : dotless s = true → split "." s = [s].
Proof.
  induction s as [|c s IH]; simpl; [done |].
  intros [Hc%negb_true_iff%bool_decide_eq_false ->%IH]%andb_true_iff.
  by rewrite decide_False.
Qed.

Lemma split_dotted field op :
  dotless field = true →
  split "." (field ++ String "." op) = field :: split "." op.
Proof.
  induction field as [|c field IH]; simpl.
  - done.
  - intros [Hc%negb_true_iff%bool_decide_eq_false Hfield]%andb_true_iff.
    by rewrite decide_False, IH.
Qed.



Lemma getlist_filter (keep : string → bool) (args : MultiDict) key :
  keep key = true →
  getlist (List.filter (λ item, keep item.1) args) key = getlist args key.
Proof.
  intros Hkeep. induction args as [|[k values] args IH]; simpl; [done |].
  destruct (keep k) eqn:Hk; simpl.
  - by rewrite IH.
  - rewrite IH. rewrite decide_False; [done | congruence].
Qed.

Lemma filter_param_getlist cls (args args' : MultiDict) filter_args key :
  getlist args key = getlist args' key →
  filter_param cls args filter_args key
  = filter_param cls args' filter_args key.
Proof. intros Hsame. unfold filter_param, getitem. by rewrite Hsame. Qed.

Lemma filter_param_skipped cls args filter_args key :
  cls_hasattr cls (base_field key) = false →
  filter_param cls args filter_args key = Ok filter_args.
Proof.
  intros Hnone. unfold filter_param. fold (base_field key). by rewrite Hnone.
Qed.

(** X13.  Arguments whose first segment names nothing on the class count
    for nothing: the builder returns, or raises, the same with them as
    without them. *)
Theorem filter_params_skip_unknown (cls : Class) (args : MultiDict) :
  _args_to_filter_params cls
    (List.filter (λ item, cls_hasattr cls (base_field item.1)) args)
  = _args_to_filter_params cls args.
Proof.
  unfold _args_to_filter_params.
  destruct (cls_hasattr cls "active"); [simpl | done].
  set (keep := λ key, cls_hasattr cls (base_field key)).
  set (known := List.filter (λ item, keep item.1) args).
  generalize [active_is_true].
  assert (∀ (items : MultiDict) l,
    for_each (filter_param cls known)
      (List.filter (λ item, keep item.1) items).*1 l
    = for_each (filter_param cls args) items.*1 l) as Hgeneral.
  { induction items as [|[key values] items IH]; intros l; simpl; [done |].
    destruct (keep key) eqn:Hkeep; simpl.
    - rewrite (filter_param_getlist cls known args)
        by (by apply (getlist_filter keep)).
      destruct (filter_param cls args l key); simpl; [apply IH | done].
    - rewrite (filter_param_skipped cls args l key Hkeep). simpl. apply IH. }
  apply Hgeneral.
Qed.

(** X14.  A single undotted key that names a column gives an equality
    predicate on the first value under the key; on a Boolean column the
    strings true and false are turned into booleans, anything else and
    any value on another column stays the string, the empty string
    included. *)
Theorem equality_filter (cls : Class) (field : string) (typ : ColumnType)
    (value : string) (values : list string) :
  cls_hasattr cls "active" = true →
  dotless field = true →
  class_attrs cls !! field = Some (Column typ) →
  _args_to_filter_params cls [(field, value :: values)]
  = Ok [active_is_true;
        FEquals field
          match typ with
          | Boolean =>
              if bool_decide (value = "true") then VBool true
              else if bool_decide (value = "false") then VBool false
              else VStr value
          | OtherType => VStr value
          end].
Proof.
  intros Hactive Hfield Hattr. unfold _args_to_filter_params.
  rewrite Hactive. simpl. unfold filter_param, cls_hasattr, cls_column, getitem.
  rewrite (split_dotless _ Hfield). simpl.
  rewrite Hattr, bool_decide_eq_true_2 by eauto. simpl.
  rewrite decide_True by done. by destruct typ.
Qed.

Lemma single_key_run cls key values :
  cls_hasattr cls "active" = true →
  _args_to_filter_params cls [(key, values)]
  = filter_param cls [(key, values)] [active_is_true] key.
Proof.
  intros Hactive. unfold _args_to_filter_params. rewrite Hactive.
  change (filter_param cls [(key, values)] [active_is_true] key
          ≫= (λ s', Ok s')
          = filter_param cls [(key, values)] [active_is_true] key).
  by destruct (filter_param cls [(key, values)] [active_is_true] key).
Qed.

(** X15.  A key [field.op] on a column: a comparison operator of
    CONDITION_MAPPING gives its comparison with the first value, [like]
    and [ilike] give the pattern match, and each of these gives no
    predicate at all when that value is the empty string; [in] gives
    the membership predicate over all the values under the key. *)
Theorem operator_filter (cls : Class) (field op : string) (typ : ColumnType)
    (value : string) (values : list string) :
  cls_hasattr cls "active" = true →
  dotless field = true →
  dotless op = true →
  class_attrs cls !! field = Some (Column typ) →
  let run := _args_to_filter_params cls
               [(field ++ String "." op, value :: values)] in
  (op ∈ ["like"; "ilike"] →
   run = Ok (if bool_decide (value = "") then [active_is_true]
             else [active_is_true; FMethod field op value]))
  ∧ (op = "in" →
     run = Ok [active_is_true; FIn field (value :: values)])
  ∧ (∀ condition,
       condition_lookup CONDITION_MAPPING op = Some condition →
       run = Ok (if bool_decide (value = "") then [active_is_true]
                 else [active_is_true; FCondition condition field value]))
  ∧ (op ∉ OPERATORS → run = Raise unknown_filter).
Proof.
  intros Hactive Hfield Hop Hattr run. subst run.
  rewrite single_key_run by done.
  unfold filter_param, cls_hasattr, cls_column, getitem.
  rewrite (split_dotted _ _ Hfield), (split_dotless _ Hop).
  change (nth 0 [field; op] "") with field.
  change (nth 1 [field; op] "") with op.
  change (List.length [field; op]) with 2%nat.
  remember (condition_lookup CONDITION_MAPPING op) as found eqn:Hfound.
  simpl. rewrite Hattr, bool_decide_eq_true_2 by eauto.
  rewrite decide_True by done. simpl.
  split; [| split; [| split]].
  - intros Hlike. rewrite (bool_decide_eq_true_2 _ Hlike).
    by destruct (bool_decide (value = "")).
  - by intros ->.
  - intros condition ->.
    assert (op ∈ CONDITION_MAPPING.*1) as Hin.
    { destruct (decide (op ∈ CONDITION_MAPPING.*1)) as [? | Hout]; [done |].
      apply condition_lookup_None in Hout. congruence. }
    simpl in Hin.
    repeat (apply elem_of_cons in Hin as [-> | Hin]);
      [by destruct (bool_decide (value = "")).. | by apply elem_of_nil in Hin].
  - intros Hunknown. rewrite operators_split in Hunknown.
    rewrite !bool_decide_eq_false_2 by tauto.
    assert (found = None) as ->; [| done].
    subst found. apply condition_lookup_None. tauto.
Qed.

(** ** Attribute names *)

Section AttributeNames.

Variable dateutil_parse : string → option datetime.

(** X16.  An update without custom deserializers neither creates nor
    removes an attribute: the entity has the same attribute names
    afterwards. *)
Theorem admin_deserialize_update_names (cls : Class) (self : Entity)
    (data : Dict) (add : bool) (self' : Entity) :
  Forall (λ key, custom_deserializers cls !! key = None) (dict_keys data) →
  admin_deserialize_update dateutil_parse cls self data add = Ok self' →
  dom self' = dom self.
Proof.
  unfold admin_deserialize_update. generalize (allowed_fieldnames cls add).
  intros fieldnames Hplain. revert self.
  induction Hplain as [|key keys Hkey _ IH]; intros self; simpl.
  - by intros [= ->].
  - intros (self1 & Hstep & Hrest)%bind_Ok.
    rewrite (IH _ Hrest).
    apply update_field_effect in Hstep; [| done].
    destruct Hstep as [-> | (_ & Hhas & raw & _ & ->)]; [done |].
    rewrite dom_insert_L. apply elem_of_dom in Hhas.
    apply subseteq_union_1_L. by apply singleton_subseteq_l.
Qed.

End AttributeNames.

Lemma admin_deserialize_update_names_witness :
  dom (<["name" := VStr "Al"]> alice : Entity) = dom alice.
Proof.
  apply (admin_deserialize_update_names iso_parse User alice
           [("name", VStr "Al"); ("email", VStr "x"); ("colour", VInt 3)]
           false).
  - apply (bool_decide_unpack _). vm_compute. exact I.
  - vm_compute. reflexivity.
Defined.

Lemma admin_deserialize_update_idempotent_witness :
  admin_deserialize_update iso_parse User renamed
    [("name", VStr "Al"); ("date_created", VStr "2021-06-15T08:30:00")] false
  = Ok renamed.
Proof.
  apply (admin_deserialize_update_idempotent iso_parse User alice).
  - apply (bool_decide_unpack _). vm_compute. exact I.
  - apply (bool_decide_unpack _). vm_compute. exact I.
  - vm_compute. reflexivity.
Defined.

Lemma serialize_then_update_unchanged_witness :
  admin_deserialize_update iso_parse User alice
    (map_to_list alice_for_members) true
  = Ok alice.
Proof.
  apply (serialize_then_update_unchanged iso_parse User alice (Some member)
           [] alice_for_members true).
  - vm_compute. reflexivity.
  - change (set_Forall
              (λ key, custom_serializers User !! key = None
                      ∧ custom_deserializers User !! key = None)
              (dom alice_for_members)).
    apply (bool_decide_unpack _). vm_compute. exact I.
  - change (map_Forall (λ _ v, is_datetime v = false) alice_for_members).
    apply (bool_decide_unpack _). vm_compute. exact I.
Defined.


Lemma equality_filter_witness :
  _args_to_filter_params User [("active", ["false"; "true"])]
  = Ok [active_is_true; FEquals "active" (VBool false)].
Proof.
  apply (equality_filter User "active" Boolean "false" ["true"]);
    reflexivity.
Defined.

Lemma operator_filter_witness :
  _args_to_filter_params User [("name.in", ["a"; "b"])]
  = Ok [active_is_true; FIn "name" ["a"; "b"]].
Proof.
  apply (operator_filter User "name" "in" OtherType "a" ["b"]);
    reflexivity.
Defined.
